(** * research/test_gpus.py: the elementwise kernel benchmark

    A shallow embedding of [vectorAdd], [vectorMultiply] and [main] of
    [research/test_gpus.py], and the properties of the benchmark that the
    specification states about them.

    - float32 and float64 values are [spec_float]s of the Standard Library
      (binary32: precision 24, emax 128; binary64: precision 53, emax 1024);
    - a numpy array of dtype float32 and one dimension is a list of
      float32 values; arrays are objects on a heap and Python names hold
      references to them;
    - [main] is a program in a state-and-exception monad over the
      interpreter state: global and local names, heap, the timer, the
      memory that the allocator can provide, standard output and a log of
      the allocations, timer readings and kernel launches in program
      order. *)

From Stdlib Require Import ZArith Lia.
From Stdlib Require Import Floats.SpecFloat.
From stdpp Require Import base gmap strings list.

Local Open Scope string_scope.
Local Open Scope list_scope.

(** ** IEEE-754 binary32: the dtype of the arrays *)

Module F32.
Definition prec : Z := 24.
Definition emax : Z := 128.

Definition t := spec_float.

Definition add : t → t → t := SFadd prec emax.
Definition mul : t → t → t := SFmul prec emax.
Definition sub : t → t → t := SFsub prec emax.

(** Python's [==] on floats: false as soon as one side is a NaN. *)
Definition eqb : t → t → bool := SFeqb.

Definition zero : t := S754_zero false.
Definition one : t := S754_finite false 8388608 (-23).
Definition two : t := S754_finite false 8388608 (-22).

Definition is_nan (x : t) : bool :=
  match x with S754_nan => true | _ => false end.
End F32.

(** ** IEEE-754 binary64: Python's [float], the type of [timer()] *)

Module F64.
Definition prec : Z := 53.
Definition emax : Z := 1024.

Definition t := spec_float.

Definition sub : t → t → t := SFsub prec emax.
Definition leb : t → t → bool := SFleb.
Definition valid : t → bool := valid_binary prec emax.

Definition zero : t := S754_zero false.

Definition is_finite (x : t) : bool :=
  match x with
  | S754_zero _ | S754_finite _ _ _ => true
  | S754_infinity _ | S754_nan => false
  end.
End F64.

(** ** Arrays and the scalar kernels *)

(** A one-dimensional [numpy.ndarray] of dtype float32. *)
Definition ndarray := list F32.t.

Inductive exn :=
  | NameError (x : string)
  | TypeError
  | ValueError
  | MemoryError.

Inductive result (A : Type) :=
  | Ok (a : A)
  | Raise (e : exn).
Arguments Ok {A} a.
Arguments Raise {A} e.

(** What [numba.vectorize(['float32(float32, float32)'])] makes of a scalar
    function: a universal function that carries the function's name. *)
Record ufunc := Ufunc {
  uname : string;
  scalar : F32.t → F32.t → F32.t
}.

Definition vectorize (name : string) (f : F32.t → F32.t → F32.t) : ufunc :=
  Ufunc name f.

(** Calling a universal function on two one-dimensional arrays: the scalar
    function is applied index by index; an array of length 1 is broadcast
    against the other one; any other pair of different lengths is a
    [ValueError]. *)
Definition apply_ufunc (u : ufunc) (a b : ndarray) : result ndarray :=
  if decide (length a = length b) then Ok (zip_with (scalar u) a b)
  else match a, b with
       | [x], _ => Ok (map (scalar u x) b)
       | _, [y] => Ok (map (λ x, scalar u x y) a)
       | _, _ => Raise ValueError
       end.

(** [def vectorAdd(a, b): return a + b] *)
Definition vectorAdd : ufunc := vectorize "vectorAdd" (λ a b, F32.add a b).

(** [def vectorMultiply(a, b): return a * b] *)
Definition vectorMultiply : ufunc := vectorize "vectorMultiply" (λ a b, F32.mul a b).

(** ** The interpreter state *)

(** An array object is identified by its position on the heap. *)
Definition loc := nat.

Inductive value :=
  | VInt (n : Z)
  | VFloat (x : F64.t)
  | VArr (l : loc)
  | VUfunc (u : ufunc).

(** What the benchmark does that matters for timing, in program order. *)
Inductive event :=
  | EvAlloc (l : loc)                (* [np.ones] or [np.zeros] made array [l] *)
  | EvTimer (k : nat)                (* the [k]-th call of [timer()] *)
  | EvKernel (name : string) (a b out : loc).
                                     (* a kernel ran on [a], [b] and made [out] *)

(** A printed line is kept as its pieces: the literal text, [str] of an
    array, and a float under the [%f] conversion. *)
Inductive chunk :=
  | Lit (s : string)
  | StrArr (a : ndarray)
  | FmtF (x : F64.t).

Definition line := list chunk.

Record state := State {
  clock : nat → F64.t;          (* what the [k]-th call of [timer()] returns *)
  ticks : nat;                  (* calls of [timer()] so far *)
  avail : nat → Z;              (* the bytes that the allocator can provide
                                   when the array that becomes object [k] is
                                   requested *)
  heap : list ndarray;          (* the array objects *)
  globals : gmap string value;  (* the global names of the module *)
  env : gmap string value;      (* the local names of [main] *)
  trace : list event;           (* most recent last *)
  stdout : list line            (* most recent last *)
}.

(** The globals when lines 5 to 12 of the module have run. *)
Definition module_globals : gmap string value :=
  <["vectorAdd" := VUfunc vectorAdd]>
    (<["vectorMultiply" := VUfunc vectorMultiply]> ∅).

(** The state in which [main] is called: no local name, no array, nothing
    printed; [g] are the globals, [c] the readings of the timer and [m] the
    memory that the allocator will find. *)
Definition boot (g : gmap string value) (c : nat → F64.t) (m : nat → Z) : state :=
  State c 0 m [] g ∅ [] [].

Definition initial (c : nat → F64.t) (m : nat → Z) : state :=
  boot module_globals c m.

(** ** The monad of statements *)

Definition M (A : Type) : Type := state → result (A * state).

Global Instance M_ret : MRet M := λ A a s, Ok (a, s).

Global Instance M_bind : MBind M := λ A B f m s,
  match m s with
  | Ok (a, s') => f a s'
  | Raise e => Raise e
  end.

Definition raise {A} (e : exn) : M A := λ _, Raise e.

Definition lift {A} (r : result A) : M A := λ s,
  match r with
  | Ok a => Ok (a, s)
  | Raise e => Raise e
  end.

Definition modify (f : state → state) : M unit := λ s, Ok ((), f s).

Definition log (ev : event) : M unit :=
  modify (λ s, State (clock s) (ticks s) (avail s) (heap s) (globals s) (env s)
                     (trace s ++ [ev]) (stdout s)).

(** A float32 takes four bytes. *)
Definition itemsize : Z := 4.

Definition nbytes (a : ndarray) : Z := itemsize * Z.of_nat (length a).

(** The largest size in bytes that numpy accepts for an array:
    [NPY_MAX_INTP], 2^63 - 1 on a 64-bit platform. *)
Definition max_bytes : Z := 9223372036854775807.

(** A new array object, when the allocator can provide its bytes, and a
    [MemoryError] when it cannot; nothing on the heap is overwritten. *)
Definition alloc (a : ndarray) : M loc := λ s,
  if (nbytes a <=? avail s (length (heap s)))%Z then
    Ok (length (heap s),
        State (clock s) (ticks s) (avail s) (heap s ++ [a]) (globals s) (env s)
              (trace s) (stdout s))
  else Raise MemoryError.

Definition deref (l : loc) : M ndarray := λ s,
  match heap s !! l with
  | Some a => Ok (a, s)
  | None => Raise TypeError
  end.

(** [x = e] *)
Definition assign (x : string) (e : M value) : M unit :=
  v ← e;
  modify (λ s, State (clock s) (ticks s) (avail s) (heap s) (globals s)
                     (<[x := v]> (env s)) (trace s) (stdout s)).

(** The value of the local name [x] *)
Definition var (x : string) : M value := λ s,
  match env s !! x with
  | Some v => Ok (v, s)
  | None => Raise (NameError x)
  end.

(** The value of the global name [x] *)
Definition global (x : string) : M value := λ s,
  match globals s !! x with
  | Some v => Ok (v, s)
  | None => Raise (NameError x)
  end.

Definition as_int (v : value) : M Z :=
  match v with VInt n => mret n | _ => raise TypeError end.

Definition as_float (v : value) : M F64.t :=
  match v with VFloat x => mret x | _ => raise TypeError end.

Definition as_array (v : value) : M loc :=
  match v with VArr l => mret l | _ => raise TypeError end.

Definition as_ufunc (v : value) : M ufunc :=
  match v with VUfunc u => mret u | _ => raise TypeError end.

(** ** The library calls of [main] *)

(** The allocation behind [np.ones] and [np.zeros]: a negative length is a
    [ValueError], a size above [max_bytes] is a [ValueError] (array is too
    big), and a size that the allocator cannot provide is a
    [MemoryError]. *)
Definition np_filled (x : F32.t) (e : M value) : M value :=
  v ← e;
  n ← as_int v;
  if (n <? 0)%Z then raise ValueError
  else if (max_bytes <? itemsize * n)%Z then raise ValueError
  else
    l ← alloc (replicate (Z.to_nat n) x);
    log (EvAlloc l);;
    mret (VArr l).

(** [np.ones(e, dtype=np.float32)] *)
Definition np_ones : M value → M value := np_filled F32.one.

(** [np.zeros(e, dtype=np.float32)] *)
Definition np_zeros : M value → M value := np_filled F32.zero.

(** [timer()] *)
Definition timer : M value := λ s,
  Ok (VFloat (clock s (ticks s)),
      State (clock s) (S (ticks s)) (avail s) (heap s) (globals s) (env s)
            (trace s ++ [EvTimer (ticks s)]) (stdout s)).

(** [f(e1, e2)]: the function and the arguments are evaluated left to
    right; the universal function reads both arrays and returns a new array
    object. [main] calls universal functions on arrays; other objects are
    refused here. *)
Definition call (f e1 e2 : M value) : M value :=
  vf ← f;
  v1 ← e1;
  v2 ← e2;
  u ← as_ufunc vf;
  la ← as_array v1;
  lb ← as_array v2;
  a ← deref la;
  b ← deref lb;
  c ← lift (apply_ufunc u a b);
  l ← alloc c;
  log (EvKernel (uname u) la lb l);;
  mret (VArr l).

(** [e1 - e2] on Python floats *)
Definition minus (e1 e2 : M value) : M value :=
  v1 ← e1;
  v2 ← e2;
  x ← as_float v1;
  y ← as_float v2;
  mret (VFloat (F64.sub x y)).

(** [e[:k]] and [e[-k:]] as values; a slice of a short array is the whole
    array. *)
Definition slice_to (k : nat) (a : ndarray) : ndarray := take k a.
Definition slice_last (k : nat) (a : ndarray) : ndarray := drop (length a - k) a.

(** [print(t)]: one line on standard output. *)
Definition print (t : M line) : M unit :=
  ln ← t;
  modify (λ s, State (clock s) (ticks s) (avail s) (heap s) (globals s) (env s)
                     (trace s) (stdout s ++ [ln])).

(** ["label" + str(e[...])] *)
Definition label_str (label : string) (sl : ndarray → ndarray) (e : M value) : M line :=
  v ← e;
  l ← as_array v;
  a ← deref l;
  mret [Lit label; StrArr (sl a)].

(** ["pre%fpost" % e] *)
Definition percent_f (pre post : string) (e : M value) : M line :=
  v ← e;
  x ← as_float v;
  mret [Lit pre; FmtF x; Lit post].

(** ** [main] *)

(** A block is the sequence of its statements, run one after the other;
    an exception ends it. *)
Definition block := list (M unit).

Fixpoint run (b : block) : M unit :=
  match b with
  | [] => mret ()
  | p :: b' => p;; run b'
  end.

(** Lines 16 to 27. Python looks the name [vectorAdd] up among the globals
    of the module when line 21 runs. *)
Definition first_trial : block :=
  [ assign "A" (np_ones (var "N"));
    assign "B" (np_ones (var "N"));
    assign "C" (np_zeros (var "N"));
    assign "start" timer;
    assign "C" (call (global "vectorAdd") (var "A") (var "B"));
    assign "vector_add_time" (minus timer (var "start"));
    print (label_str "C[:5] = " (slice_to 5) (var "C"));
    print (label_str "C[-5:] = " (slice_last 5) (var "C"));
    print (percent_f "VectorAdd took " " seconds" (var "vector_add_time")) ].

(** Lines 29 to 40. *)
Definition second_trial : block :=
  [ assign "start" timer;
    assign "E" (np_ones (var "N"));
    assign "F" (np_ones (var "N"));
    assign "G" (np_zeros (var "N"));
    assign "G" (call (global "vectorMultiply") (var "E") (var "F"));
    assign "vector_multiply_time" (minus timer (var "start"));
    print (label_str "G[:5] = " (slice_to 5) (var "G"));
    print (label_str "G[-5:] = " (slice_last 5) (var "G"));
    print (percent_f "VectorMultiply took " " seconds" (var "vector_multiply_time")) ].

(** The body of [main] for the array length [N] of line 15. *)
Definition main_with (N : Z) : block :=
  assign "N" (mret (VInt N)) :: first_trial ++ second_trial.

(** [def main(): N = 32000000 ...] *)
Definition main : block := main_with 32000000.

(** ** Observations on a state *)

(** The array that the name [x] refers to. *)
Definition array_of (x : string) (s : state) : option ndarray :=
  match env s !! x with
  | Some (VArr l) => heap s !! l
  | _ => None
  end.

Definition float_of (x : string) (s : state) : option F64.t :=
  match env s !! x with
  | Some (VFloat t) => Some t
  | _ => None
  end.

Definition loc_of (x : string) (s : state) : option loc :=
  match env s !! x with
  | Some (VArr l) => Some l
  | _ => None
  end.

(** Running a block from a state, keeping the final state. *)
Definition exec (b : block) (s : state) : result state :=
  match run b s with
  | Ok (_, s') => Ok s'
  | Raise e => Raise e
  end.

(** The next [k] arrays of [N] float32 can be allocated in [s]: the size is
    one that numpy accepts and the allocator can provide it each time. *)
Definition fits (s : state) (N : Z) (k : nat) : Prop :=
  (itemsize * N ≤ max_bytes)%Z ∧
  ∀ i : nat, (i < k)%nat → (itemsize * N ≤ avail s (length (heap s) + i))%Z.

(** ** Closed forms of the two trials *)

Definition ones (n : nat) : ndarray := replicate n F32.one.
Definition zeros (n : nat) : ndarray := replicate n F32.zero.

(** The three lines that a trial prints. *)
Definition report (x took : string) (r : ndarray) (d : F64.t) : list line :=
  [ [Lit (x +:+ "[:5] = "); StrArr (slice_to 5 r)];
    [Lit (x +:+ "[-5:] = "); StrArr (slice_last 5 r)];
    [Lit (took +:+ " took "); FmtF d; Lit " seconds"] ].

(** The state that lines 16 to 27 leave, for arrays of [n] elements and the
    universal function [k] that [vectorAdd] names. *)
Definition after_first (k : ufunc) (n : nat) (s : state) : state :=
  let l := length (heap s) in
  let t := ticks s in
  let r := zip_with (scalar k) (ones n) (ones n) in
  let d := F64.sub (clock s (S t)) (clock s t) in
  State (clock s) (S (S t)) (avail s)
    (heap s ++ [ones n; ones n; zeros n; r])
    (globals s)
    (<["vector_add_time" := VFloat d]>
       (<["C" := VArr (S (S (S l)))]>
          (<["start" := VFloat (clock s t)]>
             (<["C" := VArr (S (S l))]>
                (<["B" := VArr (S l)]>
                   (<["A" := VArr l]> (env s)))))))
    (trace s ++ [EvAlloc l; EvAlloc (S l); EvAlloc (S (S l)); EvTimer t;
                 EvKernel (uname k) l (S l) (S (S (S l))); EvTimer (S t)])
    (stdout s ++ report "C" "VectorAdd" r d).


(** The state that lines 29 to 40 leave, for the universal function [k]
    that [vectorMultiply] names. *)
Definition after_second (k : ufunc) (n : nat) (s : state) : state :=
  let l := length (heap s) in
  let t := ticks s in
  let r := zip_with (scalar k) (ones n) (ones n) in
  let d := F64.sub (clock s (S t)) (clock s t) in
  State (clock s) (S (S t)) (avail s)
    (heap s ++ [ones n; ones n; zeros n; r])
    (globals s)
    (<["vector_multiply_time" := VFloat d]>
       (<["G" := VArr (S (S (S l)))]>
          (<["G" := VArr (S (S l))]>
             (<["F" := VArr (S l)]>
                (<["E" := VArr l]>
                   (<["start" := VFloat (clock s t)]> (env s)))))))
    (trace s ++ [EvTimer t; EvAlloc l; EvAlloc (S l); EvAlloc (S (S l));
                 EvKernel (uname k) l (S l) (S (S (S l))); EvTimer (S t)])
    (stdout s ++ report "G" "VectorMultiply" r d).

(** The state that [main] leaves when it starts in [s] and [vectorAdd] and
    [vectorMultiply] name [k1] and [k2]. *)
Definition final (k1 k2 : ufunc) (N : Z) (s : state) : state :=
  after_second k2 (Z.to_nat N)
    (after_first k1 (Z.to_nat N)
       (State (clock s) (ticks s) (avail s) (heap s) (globals s)
              (<["N" := VInt N]> (env s)) (trace s) (stdout s))).

(** ** The timed window of a trial *)

(** The events after the [k]-th call of [timer()]. *)
Fixpoint after_timer (k : nat) (tr : list event) : list event :=
  match tr with
  | [] => []
  | EvTimer j :: tr' => if Nat.eqb j k then tr' else after_timer k tr'
  | _ :: tr' => after_timer k tr'
  end.

(** The events before the next call of [timer()]. *)
Fixpoint until_timer (tr : list event) : list event :=
  match tr with
  | [] => []
  | EvTimer _ :: _ => []
  | ev :: tr' => ev :: until_timer tr'
  end.

(** What runs between the [k]-th call of [timer()] and the next one: the
    work that the difference of the two readings measures. *)
Definition timed (k : nat) (tr : list event) : list event :=
  until_timer (after_timer k tr).

Definition is_alloc (ev : event) : bool :=
  match ev with EvAlloc _ => true | _ => false end.

(** ** Properties of arrays, floats and clocks *)

(** [C] has the length of [A] and holds [f] of the two elements at every
    index of [A]. *)
Definition pointwise (f : F32.t → F32.t → F32.t) (A B C : ndarray) : Prop :=
  length C = length A ∧
  ∀ i, i < length A →
    ∃ a b, A !! i = Some a ∧ B !! i = Some b ∧ C !! i = Some (f a b).

(** A float that is a zero or a positive finite number. *)
Definition finite_nonneg (x : spec_float) : Prop :=
  match x with
  | S754_zero _ | S754_finite false _ _ => True
  | _ => False
  end.

(** What [timer()] returns on a wall clock: a binary64 number of seconds
    that is finite and not below 0.0. *)
Definition reading (x : F64.t) : Prop :=
  F64.valid x = true ∧ F64.is_finite x = true ∧ F64.leb F64.zero x = true.

(** The timer never goes back. *)
Definition monotone (c : nat → F64.t) : Prop :=
  ∀ i j : nat, (i ≤ j)%nat → F64.leb (c i) (c j) = true.

(** ** Inputs of the examples *)

(** A clock that stands still, and one that advances by one second a call
    for three calls. *)
Definition still : nat → F64.t := λ _, F64.zero.

Definition seconds (k : nat) : F64.t :=
  match k with
  | 0 => S754_finite false 4503599627370496 (-52)    (* 1.0 *)
  | 1 => S754_finite false 4503599627370496 (-51)    (* 2.0 *)
  | 2 => S754_finite false 6755399441055744 (-51)    (* 3.0 *)
  | _ => S754_finite false 4503599627370496 (-50)    (* 4.0 *)
  end.

(** An allocator that provides four gibibytes at every request, and one
    that provides nothing. *)
Definition plenty : nat → Z := λ _, 4294967296%Z.
Definition exhausted : nat → Z := λ _, 0%Z.




(** The state that the add trial leaves when [main] runs on arrays of two
    elements, and a state that no add trial has touched. *)
Definition after_add : state :=
  after_first vectorAdd 2
    (State seconds 0 plenty [] module_globals (<["N" := VInt 2]> ∅) [] []).

Definition no_add : state :=
  State seconds 2 plenty [] module_globals (<["N" := VInt 2]> ∅) [] [].

(** ** Properties of the kernels and of [main] beyond the trials on ones *)

(** A binary32 number: the mantissa and the exponent are those of the
    format. *)
Definition float32 (x : F32.t) : Prop :=
  valid_binary F32.prec F32.emax x = true.

(** [inf] and [-inf], in either order. *)
Definition opposite_infinities (x y : F32.t) : bool :=
  match x, y with
  | S754_infinity sx, S754_infinity sy => xorb sx sy
  | _, _ => false
  end.

(** A zero and an infinity, in either order. *)
Definition zero_and_infinity (x y : F32.t) : bool :=
  match x, y with
  | S754_zero _, S754_infinity _ | S754_infinity _, S754_zero _ => true
  | _, _ => false
  end.

(** The element that broadcasting reads at index [i]: an array of length 1
    gives its only element at every index. *)
Definition broadcast (a : ndarray) (i : nat) : option F32.t :=
  if decide (length a = 1) then a !! 0 else a !! i.

(** The local names of [main]. *)
Definition main_locals : list string :=
  ["N"; "A"; "B"; "C"; "start"; "vector_add_time";
   "E"; "F"; "G"; "vector_multiply_time"].

(** A state in which an array, a name, a line and two timer readings are
    there already. *)
Definition busy : state :=
  State seconds 2 plenty [[F32.two]] module_globals (<["Z" := VArr 0]> ∅)
        [EvTimer 0; EvTimer 1] [[Lit "before"]].

(** ** Evaluation rules of the statements *)

Section Rules.
Context {A B : Type}.

Lemma bind_evals (m : M A) (f : A → M B) s a s1 r :
  m s = Ok (a, s1) → f a s1 = r → (m ≫= f) s = r.
Proof. intros Hm Hf. unfold mbind, M_bind. now rewrite Hm. Qed.

Lemma bind_raises (m : M A) (f : A → M B) s e :
  m s = Raise e → (m ≫= f) s = Raise e.
Proof. intros Hm. unfold mbind, M_bind. now rewrite Hm. Qed.
End Rules.

Lemma var_evals x s v : env s !! x = Some v → var x s = Ok (v, s).
Proof. intros H. unfold var. now rewrite H. Qed.

Lemma global_evals x s v : globals s !! x = Some v → global x s = Ok (v, s).
Proof. intros H. unfold global. now rewrite H. Qed.


Lemma assign_evals x e s v s1 :
  e s = Ok (v, s1) →
  assign x e s =
    Ok ((), State (clock s1) (ticks s1) (avail s1) (heap s1) (globals s1)
                  (<[x := v]> (env s1)) (trace s1) (stdout s1)).
Proof. intros H. unfold assign. now apply (bind_evals _ _ _ _ _ _ H). Qed.

Lemma assign_raises x e s err : e s = Raise err → assign x e s = Raise err.
Proof. intros H. unfold assign. now apply bind_raises. Qed.

Lemma nbytes_replicate n (x : F32.t) :
  (0 ≤ n)%Z → nbytes (replicate (Z.to_nat n) x) = (itemsize * n)%Z.
Proof. intros Hn. unfold nbytes. rewrite length_replicate. f_equal. lia. Qed.

Lemma alloc_evals a s :
  (nbytes a ≤ avail s (length (heap s)))%Z →
  alloc a s =
    Ok (length (heap s),
        State (clock s) (ticks s) (avail s) (heap s ++ [a]) (globals s) (env s)
              (trace s) (stdout s)).
Proof.
  intros H. unfold alloc.
  destruct (Z.leb_spec (nbytes a) (avail s (length (heap s)))); [reflexivity | lia].
Qed.

Lemma alloc_raises a s :
  (avail s (length (heap s)) < nbytes a)%Z → alloc a s = Raise MemoryError.
Proof.
  intros H. unfold alloc.
  destruct (Z.leb_spec (nbytes a) (avail s (length (heap s)))); [lia | reflexivity].
Qed.

Lemma np_filled_evals x e s n s1 :
  e s = Ok (VInt n, s1) → (0 ≤ n)%Z →
  (itemsize * n ≤ max_bytes)%Z →
  (itemsize * n ≤ avail s1 (length (heap s1)))%Z →
  np_filled x e s =
    Ok (VArr (length (heap s1)),
        State (clock s1) (ticks s1) (avail s1)
              (heap s1 ++ [replicate (Z.to_nat n) x]) (globals s1) (env s1)
              (trace s1 ++ [EvAlloc (length (heap s1))]) (stdout s1)).
Proof.
  intros H Hn Hmax Hav. unfold np_filled.
  apply (bind_evals _ _ _ _ _ _ H). cbn [as_int].
  eapply bind_evals; [reflexivity|].
  destruct (Z.ltb_spec n 0); [lia|].
  destruct (Z.ltb_spec max_bytes (itemsize * n)); [lia|].
  eapply bind_evals; [apply alloc_evals; now rewrite nbytes_replicate|].
  reflexivity.
Qed.

Lemma np_filled_negative x e s n s1 :
  e s = Ok (VInt n, s1) → (n < 0)%Z → np_filled x e s = Raise ValueError.
Proof.
  intros H Hn. unfold np_filled.
  apply (bind_evals _ _ _ _ _ _ H). cbn [as_int].
  eapply bind_evals; [reflexivity|].
  destruct (Z.ltb_spec n 0); [reflexivity | lia].
Qed.

Lemma np_filled_too_big x e s n s1 :
  e s = Ok (VInt n, s1) → (max_bytes < itemsize * n)%Z →
  np_filled x e s = Raise ValueError.
Proof.
  intros H Hn. unfold np_filled.
  apply (bind_evals _ _ _ _ _ _ H). cbn [as_int].
  eapply bind_evals; [reflexivity|].
  destruct (Z.ltb_spec n 0); [reflexivity|].
  destruct (Z.ltb_spec max_bytes (itemsize * n)); [reflexivity | lia].
Qed.

Lemma np_filled_no_memory x e s n s1 :
  e s = Ok (VInt n, s1) → (0 ≤ n)%Z → (itemsize * n ≤ max_bytes)%Z →
  (avail s1 (length (heap s1)) < itemsize * n)%Z →
  np_filled x e s = Raise MemoryError.
Proof.
  intros H Hn Hmax Hav. unfold np_filled.
  apply (bind_evals _ _ _ _ _ _ H). cbn [as_int].
  eapply bind_evals; [reflexivity|].
  destruct (Z.ltb_spec n 0); [lia|].
  destruct (Z.ltb_spec max_bytes (itemsize * n)); [lia|].
  apply bind_raises, alloc_raises. now rewrite nbytes_replicate.
Qed.

Lemma call_evals f e1 e2 s u s0 la s1 lb s2 a b c :
  f s = Ok (VUfunc u, s0) →
  e1 s0 = Ok (VArr la, s1) → e2 s1 = Ok (VArr lb, s2) →
  heap s2 !! la = Some a → heap s2 !! lb = Some b →
  apply_ufunc u a b = Ok c →
  (nbytes c ≤ avail s2 (length (heap s2)))%Z →
  call f e1 e2 s =
    Ok (VArr (length (heap s2)),
        State (clock s2) (ticks s2) (avail s2) (heap s2 ++ [c]) (globals s2) (env s2)
              (trace s2 ++ [EvKernel (uname u) la lb (length (heap s2))]) (stdout s2)).
Proof.
  intros Hf H1 H2 Ha Hb Hc Hav. unfold call.
  apply (bind_evals _ _ _ _ _ _ Hf).
  apply (bind_evals _ _ _ _ _ _ H1). apply (bind_evals _ _ _ _ _ _ H2).
  cbn [as_ufunc as_array].
  eapply bind_evals; [reflexivity|].
  eapply bind_evals; [reflexivity|]. eapply bind_evals; [reflexivity|].
  eapply bind_evals; [unfold deref; now rewrite Ha|].
  eapply bind_evals; [unfold deref; now rewrite Hb|].
  eapply bind_evals; [unfold lift; now rewrite Hc|].
  eapply bind_evals; [now apply alloc_evals|].
  reflexivity.
Qed.


Lemma minus_evals e1 e2 s x s1 y s2 :
  e1 s = Ok (VFloat x, s1) → e2 s1 = Ok (VFloat y, s2) →
  minus e1 e2 s = Ok (VFloat (F64.sub x y), s2).
Proof.
  intros H1 H2. unfold minus.
  apply (bind_evals _ _ _ _ _ _ H1). apply (bind_evals _ _ _ _ _ _ H2).
  reflexivity.
Qed.

Lemma print_evals t s ln s1 :
  t s = Ok (ln, s1) →
  print t s =
    Ok ((), State (clock s1) (ticks s1) (avail s1) (heap s1) (globals s1) (env s1)
                  (trace s1) (stdout s1 ++ [ln])).
Proof. intros H. unfold print. now apply (bind_evals _ _ _ _ _ _ H). Qed.

Lemma label_str_evals label sl e s l s1 a :
  e s = Ok (VArr l, s1) → heap s1 !! l = Some a →
  label_str label sl e s = Ok ([Lit label; StrArr (sl a)], s1).
Proof.
  intros H Ha. unfold label_str.
  apply (bind_evals _ _ _ _ _ _ H). cbn [as_array].
  eapply bind_evals; [reflexivity|].
  eapply bind_evals; [unfold deref; now rewrite Ha|].
  reflexivity.
Qed.

Lemma percent_f_evals pre post e s x s1 :
  e s = Ok (VFloat x, s1) →
  percent_f pre post e s = Ok ([Lit pre; FmtF x; Lit post], s1).
Proof.
  intros H. unfold percent_f.
  apply (bind_evals _ _ _ _ _ _ H). reflexivity.
Qed.

Lemma heap_lookup_new (h : list ndarray) a : (h ++ [a]) !! length h = Some a.
Proof. now rewrite list_lookup_middle. Qed.

Lemma heap_lookup_old (h : list ndarray) l a b :
  h !! l = Some a → (h ++ [b]) !! l = Some a.
Proof. intros H. now apply lookup_app_l_Some. Qed.

Lemma apply_ufunc_same_length u a b :
  length a = length b → apply_ufunc u a b = Ok (zip_with (scalar u) a b).
Proof. intros H. unfold apply_ufunc. now rewrite decide_True. Qed.

Lemma nbytes_zip_with (f : F32.t → F32.t → F32.t) n x y N :
  n = Z.to_nat N → (0 ≤ N)%Z →
  nbytes (zip_with f (replicate n x) (replicate n y)) = (itemsize * N)%Z.
Proof.
  intros -> HN. unfold nbytes.
  rewrite length_zip_with, !length_replicate. f_equal. lia.
Qed.

(** The memory that [fits] promises, at the [i]-th object from now. *)
Lemma fits_at s N k :
  fits s N k → ∀ (j i : nat), (i < k)%nat → j = length (heap s) + i →
  (itemsize * N ≤ avail s j)%Z.
Proof. intros [_ H] j i Hi ->. now apply H. Qed.

Lemma fits_max s N k : fits s N k → (itemsize * N ≤ max_bytes)%Z.
Proof. now intros [H _]. Qed.

Lemma fits_fewer s N k k' : (k' ≤ k)%nat → fits s N k → fits s N k'.
Proof. intros Hk [Hmax H]. split; [exact Hmax|]. intros i Hi. apply H. lia. Qed.

Lemma fits_smaller s N N' k : (N' ≤ N)%Z → fits s N k → fits s N' k.
Proof.
  intros HN [Hmax H]. unfold fits, itemsize in *. split; [lia|].
  intros i Hi. specialize (H i Hi). lia.
Qed.

(** One statement of a trial: run it, then show the state it leaves. *)
Ltac lookup_name := eapply var_evals; cbn [env]; simplify_map_eq; reflexivity.
Ltac lookup_global := eapply global_evals; cbn [globals]; eassumption.
Ltac lookup_heap := cbn [heap]; eauto using heap_lookup_new, heap_lookup_old.
Ltac next_statement run :=
  eapply bind_evals; [ run | cbn [clock ticks avail heap globals env trace stdout] ].

Ltac room_at i :=
  match goal with
  | Hfit : fits _ _ _ |- _ =>
      eapply (fits_at _ _ _ Hfit _ i); [lia | cbn [heap length initial boot]; lia]
  end.

Ltac room :=
  cbn [avail heap]; rewrite ?length_app; cbn [length];
  first [ room_at 0 | room_at 1 | room_at 2 | room_at 3
        | room_at 4 | room_at 5 | room_at 6 | room_at 7 ].

Ltac run_alloc :=
  eapply assign_evals, np_filled_evals;
    [ lookup_name | lia
    | match goal with Hfit : fits _ _ _ |- _ => exact (fits_max _ _ _ Hfit) end
    | room ].
Ltac run_start := eapply assign_evals; reflexivity.
Ltac run_call :=
  eapply assign_evals, call_evals;
    [ lookup_global | lookup_name | lookup_name | lookup_heap | lookup_heap
    | apply apply_ufunc_same_length; now rewrite !length_replicate
    | erewrite nbytes_zip_with by (reflexivity || assumption); room ].
Ltac run_stop := eapply assign_evals, minus_evals; [reflexivity | lookup_name].
Ltac run_print_slice := eapply print_evals, label_str_evals; [lookup_name | lookup_heap].
Ltac run_print_time := eapply print_evals, percent_f_evals; lookup_name.

Ltac same_state :=
  unfold after_first, after_second, report, ones, zeros;
  cbn [clock ticks avail heap globals env trace stdout String.app];
  rewrite ?length_app; cbn [length]; rewrite ?Nat.add_1_r, <- ?app_assoc;
  reflexivity.

Lemma first_trial_evals k N s :
  globals s !! "vectorAdd" = Some (VUfunc k) →
  env s !! "N" = Some (VInt N) → (0 ≤ N)%Z → fits s N 4 →
  run first_trial s = Ok ((), after_first k (Z.to_nat N) s).
Proof.
  intros Hg HN Hpos Hfit.
  enough (∃ s', run first_trial s = Ok ((), s') ∧ s' = after_first k (Z.to_nat N) s)
    as (s' & -> & ->) by reflexivity.
  eexists; split.
  - unfold first_trial; cbn [run].
    next_statement ltac:(run_alloc).
    next_statement ltac:(run_alloc).
    next_statement ltac:(run_alloc).
    next_statement ltac:(run_start).
    next_statement ltac:(run_call).
    next_statement ltac:(run_stop).
    next_statement ltac:(run_print_slice).
    next_statement ltac:(run_print_slice).
    next_statement ltac:(run_print_time).
    reflexivity.
  - same_state.
Qed.

Lemma second_trial_evals k N s :
  globals s !! "vectorMultiply" = Some (VUfunc k) →
  env s !! "N" = Some (VInt N) → (0 ≤ N)%Z → fits s N 4 →
  run second_trial s = Ok ((), after_second k (Z.to_nat N) s).
Proof.
  intros Hg HN Hpos Hfit.
  enough (∃ s', run second_trial s = Ok ((), s') ∧ s' = after_second k (Z.to_nat N) s)
    as (s' & -> & ->) by reflexivity.
  eexists; split.
  - unfold second_trial; cbn [run].
    next_statement ltac:(run_start).
    next_statement ltac:(run_alloc).
    next_statement ltac:(run_alloc).
    next_statement ltac:(run_alloc).
    next_statement ltac:(run_call).
    next_statement ltac:(run_stop).
    next_statement ltac:(run_print_slice).
    next_statement ltac:(run_print_slice).
    next_statement ltac:(run_print_time).
    reflexivity.
  - same_state.
Qed.

Lemma run_app b1 b2 s s1 r :
  run b1 s = Ok ((), s1) → run b2 s1 = r → run (b1 ++ b2) s = r.
Proof.
  revert s. induction b1 as [|p b1 IH]; intros s H1 H2.
  - cbn in H1. injection H1 as <-. exact H2.
  - cbn [app run] in *. unfold mbind, M_bind in *.
    destruct (p s) as [[[] s']|e]; [|discriminate]. now apply IH.
Qed.

Lemma exec_evals b s s' : run b s = Ok ((), s') → exec b s = Ok s'.
Proof. intros H. unfold exec. now rewrite H. Qed.

Lemma exec_raises b s e : run b s = Raise e → exec b s = Raise e.
Proof. intros H. unfold exec. now rewrite H. Qed.

(** The second trial finds the memory that is left after the first. *)
Lemma fits_after_first k n s N :
  fits s N 8 →
  fits (after_first k n
          (State (clock s) (ticks s) (avail s) (heap s) (globals s)
                 (<["N" := VInt N]> (env s)) (trace s) (stdout s))) N 4.
Proof.
  intros [Hmax H]. split; [exact Hmax|]. intros i Hi.
  unfold after_first; cbn [avail heap]. rewrite length_app; cbn [length].
  rewrite <- Nat.add_assoc. apply H. lia.
Qed.

(** [main] in a state [s] where the two names are bound to universal
    functions and eight arrays can be allocated. *)
Lemma main_with_runs k1 k2 N s :
  globals s !! "vectorAdd" = Some (VUfunc k1) →
  globals s !! "vectorMultiply" = Some (VUfunc k2) →
  (0 ≤ N)%Z → fits s N 8 →
  run (main_with N) s = Ok ((), final k1 k2 N s).
Proof.
  intros Hg1 Hg2 Hpos Hfit. unfold main_with, final. cbn [run].
  eapply bind_evals; [eapply assign_evals; reflexivity|].
  eapply run_app.
  - apply first_trial_evals;
      [exact Hg1 | cbn [env]; now simplify_map_eq | exact Hpos |].
    apply (fits_fewer _ _ 8); [lia|exact Hfit].
  - apply second_trial_evals; [exact Hg2 | | exact Hpos | now apply fits_after_first].
    unfold after_first; cbn [env]. now simplify_map_eq.
Qed.

Lemma module_vectorAdd : module_globals !! "vectorAdd" = Some (VUfunc vectorAdd).
Proof. reflexivity. Qed.

Lemma module_vectorMultiply :
  module_globals !! "vectorMultiply" = Some (VUfunc vectorMultiply).
Proof. reflexivity. Qed.

Lemma main_with_evals N c m :
  (0 ≤ N)%Z → fits (initial c m) N 8 →
  exec (main_with N) (initial c m) = Ok (final vectorAdd vectorMultiply N (initial c m)).
Proof.
  intros Hpos Hfit. apply exec_evals, main_with_runs;
    [apply module_vectorAdd | apply module_vectorMultiply | exact Hpos | exact Hfit].
Qed.

(** The allocator of the examples provides what arrays of at most 2^30
    elements need. *)
Lemma plenty_fits s N k :
  avail s = plenty → (N ≤ 1073741824)%Z → fits s N k.
Proof.
  intros Hav HN. unfold fits, itemsize, max_bytes. rewrite Hav. unfold plenty.
  split; [lia|]. intros _ _. lia.
Qed.

(** ** What the final state holds *)

Section Final.
Variables (k1 k2 : ufunc) (N : Z).
Variables (g : gmap string value) (c : nat → F64.t) (m : nat → Z).

Let n := Z.to_nat N.
Let r1 := zip_with (scalar k1) (ones n) (ones n).
Let r2 := zip_with (scalar k2) (ones n) (ones n).
Let d1 := F64.sub (c 1) (c 0).
Let d2 := F64.sub (c 3) (c 2).

Lemma final_heap :
  heap (final k1 k2 N (boot g c m)) =
    [ones n; ones n; zeros n; r1; ones n; ones n; zeros n; r2].
Proof. reflexivity. Qed.

Lemma final_trace :
  trace (final k1 k2 N (boot g c m)) =
    [EvAlloc 0; EvAlloc 1; EvAlloc 2; EvTimer 0; EvKernel (uname k1) 0 1 3; EvTimer 1;
     EvTimer 2; EvAlloc 4; EvAlloc 5; EvAlloc 6; EvKernel (uname k2) 4 5 7; EvTimer 3].
Proof. reflexivity. Qed.

Lemma final_stdout :
  stdout (final k1 k2 N (boot g c m)) =
    report "C" "VectorAdd" r1 d1 ++ report "G" "VectorMultiply" r2 d2.
Proof. reflexivity. Qed.

Lemma final_loc_of x l :
  loc_of x (final k1 k2 N (boot g c m)) = Some l →
  (x = "A" ∧ l = 0) ∨ (x = "B" ∧ l = 1) ∨ (x = "C" ∧ l = 3) ∨
  (x = "E" ∧ l = 4) ∨ (x = "F" ∧ l = 5) ∨ (x = "G" ∧ l = 7).
Proof.
  unfold loc_of, final, after_second, after_first, boot; cbn [env heap length].
  destruct (_ !! x) as [v|] eqn:E; [|discriminate].
  repeat (apply lookup_insert_Some in E as [[<- <-] | [? E]];
          [ try discriminate; intros [= <-]; tauto |]).
  now rewrite lookup_empty in E.
Qed.

Ltac name_in_final :=
  unfold array_of, loc_of, float_of, final, after_second, after_first, boot;
  cbn [env heap clock ticks length]; simplify_map_eq; reflexivity.

Lemma final_A : array_of "A" (final k1 k2 N (boot g c m)) = Some (ones n).
Proof. name_in_final. Qed.
Lemma final_B : array_of "B" (final k1 k2 N (boot g c m)) = Some (ones n).
Proof. name_in_final. Qed.
Lemma final_C : array_of "C" (final k1 k2 N (boot g c m)) = Some r1.
Proof. name_in_final. Qed.
Lemma final_E : array_of "E" (final k1 k2 N (boot g c m)) = Some (ones n).
Proof. name_in_final. Qed.
Lemma final_F : array_of "F" (final k1 k2 N (boot g c m)) = Some (ones n).
Proof. name_in_final. Qed.
Lemma final_G : array_of "G" (final k1 k2 N (boot g c m)) = Some r2.
Proof. name_in_final. Qed.

Lemma final_loc_C : loc_of "C" (final k1 k2 N (boot g c m)) = Some 3.
Proof. name_in_final. Qed.
Lemma final_loc_G : loc_of "G" (final k1 k2 N (boot g c m)) = Some 7.
Proof. name_in_final. Qed.

Lemma final_add_time :
  float_of "vector_add_time" (final k1 k2 N (boot g c m)) = Some d1.
Proof. name_in_final. Qed.
Lemma final_multiply_time :
  float_of "vector_multiply_time" (final k1 k2 N (boot g c m)) = Some d2.
Proof. name_in_final. Qed.
End Final.

(** ** The kernels on arrays *)

(** [1.0] and [2.0] as float32: the integers 1 and 2 rounded to binary32. *)
Example one_is_1 : binary_normalize F32.prec F32.emax 1 0 false = F32.one.
Proof. reflexivity. Qed.

Example two_is_2 : binary_normalize F32.prec F32.emax 2 0 false = F32.two.
Proof. reflexivity. Qed.

Lemma add_one_one : F32.add F32.one F32.one = F32.two.
Proof. reflexivity. Qed.

Lemma mul_one_one : F32.mul F32.one F32.one = F32.one.
Proof. reflexivity. Qed.

Lemma vectorAdd_ones n :
  zip_with (scalar vectorAdd) (ones n) (ones n) = replicate n F32.two.
Proof. unfold ones. now rewrite zip_with_replicate. Qed.

Lemma vectorMultiply_ones n :
  zip_with (scalar vectorMultiply) (ones n) (ones n) = replicate n F32.one.
Proof. unfold ones. now rewrite zip_with_replicate. Qed.

Lemma zip_with_pointwise f (A B : ndarray) :
  length A = length B → pointwise f A B (zip_with f A B).
Proof.
  intros Hlen. split.
  - now apply length_zip_with_l_eq.
  - intros i Hi.
    destruct (lookup_lt_is_Some_2 A i Hi) as [a Ha].
    destruct (lookup_lt_is_Some_2 B i) as [b Hb]; [lia|].
    exists a, b. repeat split; try assumption.
    apply lookup_zip_with_Some. eauto.
Qed.

(** A float that is not a NaN compares equal to itself. *)
Lemma eqb_refl (x : F32.t) : F32.is_nan x = false → F32.eqb x x = true.
Proof.
  destruct x as [s|s| |s m e]; try destruct s; try reflexivity; try discriminate;
    intros _; unfold F32.eqb, SFeqb, SFcompare;
    rewrite Z.compare_refl, ?Pos.compare_cont_refl; reflexivity.
Qed.

(** ** C1: both trials on arrays of ones *)

(** C1. For every [N > 0] of which eight float32 arrays can be allocated,
    [main] with arrays of [N] ones leaves in [C] an array of length [N] that
    holds 2.0 at every index, and in [G] an array of length [N] that holds
    1.0 at every index. *)
Theorem trials_on_ones (N : Z) (c : nat → F64.t) (m : nat → Z) :
  (0 < N)%Z → fits (initial c m) N 8 →
  ∃ s C G,
    exec (main_with N) (initial c m) = Ok s ∧
    array_of "A" s = Some (ones (Z.to_nat N)) ∧
    array_of "B" s = Some (ones (Z.to_nat N)) ∧
    array_of "C" s = Some C ∧ length C = Z.to_nat N ∧
    array_of "E" s = Some (ones (Z.to_nat N)) ∧
    array_of "F" s = Some (ones (Z.to_nat N)) ∧
    array_of "G" s = Some G ∧ length G = Z.to_nat N ∧
    ∀ i : nat, (Z.of_nat i < N)%Z →
      C !! i = Some F32.two ∧ G !! i = Some F32.one.
Proof.
  intros HN Hfit.
  exists (final vectorAdd vectorMultiply N (initial c m)),
    (replicate (Z.to_nat N) F32.two), (replicate (Z.to_nat N) F32.one).
  rewrite main_with_evals by first [lia | assumption].
  unfold initial.
  rewrite final_A, final_B, final_C, final_E, final_F, final_G.
  rewrite vectorAdd_ones, vectorMultiply_ones, !length_replicate.
  repeat split.
  all: apply lookup_replicate_2; lia.
Qed.

Lemma trials_on_ones_witness :
  (0 < 5)%Z ∧ fits (initial still plenty) 5 8 ∧
  ∃ s C G,
    exec (main_with 5) (initial still plenty) = Ok s ∧
    array_of "A" s = Some (ones (Z.to_nat 5)) ∧
    array_of "B" s = Some (ones (Z.to_nat 5)) ∧
    array_of "C" s = Some C ∧ length C = Z.to_nat 5 ∧
    array_of "E" s = Some (ones (Z.to_nat 5)) ∧
    array_of "F" s = Some (ones (Z.to_nat 5)) ∧
    array_of "G" s = Some G ∧ length G = Z.to_nat 5 ∧
    ∀ i : nat, (Z.of_nat i < 5)%Z →
      C !! i = Some F32.two ∧ G !! i = Some F32.one.
Proof.
  assert (Hfit : fits (initial still plenty) 5 8)
    by (split; [vm_compute; discriminate | intros i _; vm_compute; discriminate]).
  split; [lia|]. split; [exact Hfit|].
  apply (trials_on_ones 5 still plenty); [lia | exact Hfit].
Defined.

(** The two scenarios of the specification, [N = 5]. *)
Example add_five :
  apply_ufunc vectorAdd (ones 5) (ones 5) =
    Ok [F32.two; F32.two; F32.two; F32.two; F32.two].
Proof. reflexivity. Qed.

Example multiply_five :
  apply_ufunc vectorMultiply (ones 5) (ones 5) =
    Ok [F32.one; F32.one; F32.one; F32.one; F32.one].
Proof. reflexivity. Qed.

(** Without the memory [main] stops at line 16: a length of 2^62 elements
    is more than numpy accepts, and an allocator that has nothing to give
    refuses the first array. *)
Example too_big_length (c : nat → F64.t) (m : nat → Z) :
  exec (main_with 4611686018427387904) (initial c m) = Raise ValueError.
Proof. reflexivity. Qed.

Lemma first_allocation_fails (N : Z) (c : nat → F64.t) (m : nat → Z) :
  (0 ≤ N)%Z → (itemsize * N ≤ max_bytes)%Z → (m 0%nat < itemsize * N)%Z →
  exec (main_with N) (initial c m) = Raise MemoryError.
Proof.
  intros HN Hmax Hm. apply exec_raises. unfold main_with. cbn [run].
  eapply bind_evals; [eapply assign_evals; reflexivity|].
  cbn [first_trial app run].
  apply bind_raises, assign_raises.
  eapply np_filled_no_memory; [lookup_name | exact HN | exact Hmax | exact Hm].
Qed.

Example no_memory (c : nat → F64.t) :
  exec main (initial c exhausted) = Raise MemoryError.
Proof. apply first_allocation_fails; unfold itemsize, max_bytes, exhausted; lia. Qed.

(** ** C3: the kernels on any two arrays of one length *)

(** C3. For all float32 arrays [A] and [B] of one length, [vectorAdd(A, B)]
    returns an array of that length that holds [A[i] + B[i]] at every index
    [i], and [vectorMultiply(A, B)] one that holds [A[i] * B[i]], in binary32
    arithmetic. *)
Theorem kernels_pointwise (A B : ndarray) :
  length A = length B →
  (∃ C, apply_ufunc vectorAdd A B = Ok C ∧ pointwise F32.add A B C) ∧
  (∃ C, apply_ufunc vectorMultiply A B = Ok C ∧ pointwise F32.mul A B C).
Proof.
  intros Hlen. split; eexists; (split; [now apply apply_ufunc_same_length|]).
  - now apply (zip_with_pointwise (scalar vectorAdd)).
  - now apply (zip_with_pointwise (scalar vectorMultiply)).
Qed.

Lemma kernels_pointwise_witness :
  length [F32.one; F32.two] = length [F32.two; F32.two] ∧
  (∃ C, apply_ufunc vectorAdd [F32.one; F32.two] [F32.two; F32.two] = Ok C ∧
        pointwise F32.add [F32.one; F32.two] [F32.two; F32.two] C) ∧
  (∃ C, apply_ufunc vectorMultiply [F32.one; F32.two] [F32.two; F32.two] = Ok C ∧
        pointwise F32.mul [F32.one; F32.two] [F32.two; F32.two] C).
Proof.
  split; [reflexivity|].
  apply (kernels_pointwise [F32.one; F32.two] [F32.two; F32.two]). reflexivity.
Defined.

(** Under Python's [==] the element equals [op(A[i], B[i])] wherever that
    is not a NaN; a NaN, such as [inf + -inf], compares unequal to itself. *)
Lemma pointwise_eqb f (A B C : ndarray) i :
  pointwise f A B C → i < length A →
  ∃ a b x, A !! i = Some a ∧ B !! i = Some b ∧ C !! i = Some x ∧
    (F32.is_nan (f a b) = false → F32.eqb x (f a b) = true).
Proof.
  intros [_ H] Hi. destruct (H i Hi) as (a & b & Ha & Hb & Hc).
  exists a, b, (f a b). repeat split; try assumption. apply eqb_refl.
Qed.

Example inf_minus_inf :
  apply_ufunc vectorAdd [S754_infinity false] [S754_infinity true] = Ok [S754_nan] ∧
  F32.eqb S754_nan S754_nan = false.
Proof. split; reflexivity. Qed.

(** When the kernel is called in [main]'s way and the result can be
    allocated, the result is a new array with these elements. *)
Lemma call_pointwise f u x y s la lb a b :
  globals s !! f = Some (VUfunc u) →
  loc_of x s = Some la → loc_of y s = Some lb →
  heap s !! la = Some a → heap s !! lb = Some b → length a = length b →
  (nbytes a ≤ avail s (length (heap s)))%Z →
  ∃ l s', call (global f) (var x) (var y) s = Ok (VArr l, s') ∧
    heap s' !! l = Some (zip_with (scalar u) a b) ∧
    pointwise (scalar u) a b (zip_with (scalar u) a b).
Proof.
  unfold loc_of. intros Hf Hx Hy Ha Hb Hlen Hav.
  destruct (env s !! x) as [[| |la'|]|] eqn:Ex; try discriminate.
  destruct (env s !! y) as [[| |lb'|]|] eqn:Ey; try discriminate.
  injection Hx as ->. injection Hy as ->.
  do 2 eexists. split; [|split].
  - eapply call_evals; eauto using global_evals, var_evals, apply_ufunc_same_length.
    unfold nbytes in *. now rewrite length_zip_with_l_eq.
  - apply heap_lookup_new.
  - now apply zip_with_pointwise.
Qed.

(** ** C8: the lengths 1 and 0 *)

(** C8. With [N = 1] the add trial gives the one-element array [[2.0]] and
    the multiply trial [[1.0]]. With [N = 0] the program does not fail: both
    trials return the empty array, and so does each kernel on empty
    arrays. The eight arrays of one element can be allocated. *)
Theorem boundary_sizes (c : nat → F64.t) (m : nat → Z) :
  fits (initial c m) 1 8 →
  (∃ s, exec (main_with 1) (initial c m) = Ok s ∧
        array_of "C" s = Some [F32.two] ∧ array_of "G" s = Some [F32.one]) ∧
  (∃ s, exec (main_with 0) (initial c m) = Ok s ∧
        array_of "C" s = Some [] ∧ array_of "G" s = Some []) ∧
  (∀ e, exec (main_with 0) (initial c m) ≠ Raise e) ∧
  apply_ufunc vectorAdd [] [] = Ok [] ∧
  apply_ufunc vectorMultiply [] [] = Ok [].
Proof.
  intros Hfit.
  assert (Hfit0 : fits (initial c m) 0 8)
    by (apply (fits_smaller _ 1); [lia | exact Hfit]).
  rewrite !main_with_evals by first [lia | assumption].
  unfold initial.
  repeat split; try discriminate.
  - eexists; split; [reflexivity|]. now rewrite final_C, final_G.
  - eexists; split; [reflexivity|]. now rewrite final_C, final_G.
Qed.

Lemma boundary_sizes_witness :
  (∃ s, exec (main_with 1) (initial seconds plenty) = Ok s ∧
        array_of "C" s = Some [F32.two] ∧ array_of "G" s = Some [F32.one]) ∧
  (∃ s, exec (main_with 0) (initial seconds plenty) = Ok s ∧
        array_of "C" s = Some [] ∧ array_of "G" s = Some []) ∧
  (∀ e, exec (main_with 0) (initial seconds plenty) ≠ Raise e) ∧
  apply_ufunc vectorAdd [] [] = Ok [] ∧
  apply_ufunc vectorMultiply [] [] = Ok [].
Proof.
  apply (boundary_sizes seconds plenty).
  split; [vm_compute; discriminate | intros i _; vm_compute; discriminate].
Defined.

(** A negative length is refused by [np.ones] before anything is
    allocated; the length 0 is not. *)
Example negative_length (c : nat → F64.t) (m : nat → Z) :
  exec (main_with (-1)) (initial c m) = Raise ValueError.
Proof. reflexivity. Qed.

(** ** C2: what the two timers measure *)

(** C2, on the code. In [main] the first timer is started after [A], [B]
    and [C] are allocated, and only the kernel runs between its two readings.
    The second timer is started at line 29, before [E], [F] and [G] are
    allocated at lines 31 to 33: the three allocations run between its two
    readings, so the duration reported for the multiply trial includes
    them. This is a run of [main] in which the eight arrays of 32000000
    float32 can be allocated. *)
Theorem multiply_timer_covers_allocation (c : nat → F64.t) (m : nat → Z) :
  fits (initial c m) 32000000 8 →
  ∃ s, exec main (initial c m) = Ok s ∧
    timed 0 (trace s) = [EvKernel "vectorAdd" 0 1 3] ∧
    float_of "vector_add_time" s = Some (F64.sub (c 1) (c 0)) ∧
    timed 2 (trace s) =
      [EvAlloc 4; EvAlloc 5; EvAlloc 6; EvKernel "vectorMultiply" 4 5 7] ∧
    float_of "vector_multiply_time" s = Some (F64.sub (c 3) (c 2)) ∧
    existsb is_alloc (timed 0 (trace s)) = false ∧
    existsb is_alloc (timed 2 (trace s)) = true.
Proof.
  intros Hfit.
  exists (final vectorAdd vectorMultiply 32000000 (initial c m)).
  unfold main. rewrite main_with_evals by first [lia | assumption].
  unfold initial.
  rewrite final_trace, final_add_time, final_multiply_time.
  repeat split.
Qed.

Lemma multiply_timer_covers_allocation_witness :
  ∃ s, exec main (initial seconds plenty) = Ok s ∧
    timed 0 (trace s) = [EvKernel "vectorAdd" 0 1 3] ∧
    float_of "vector_add_time" s = Some (F64.sub (seconds 1) (seconds 0)) ∧
    timed 2 (trace s) =
      [EvAlloc 4; EvAlloc 5; EvAlloc 6; EvKernel "vectorMultiply" 4 5 7] ∧
    float_of "vector_multiply_time" s = Some (F64.sub (seconds 3) (seconds 2)) ∧
    existsb is_alloc (timed 0 (trace s)) = false ∧
    existsb is_alloc (timed 2 (trace s)) = true.
Proof.
  apply (multiply_timer_covers_allocation seconds plenty).
  split; [vm_compute; discriminate | intros i _; vm_compute; discriminate].
Defined.

(** ** C6: the multiply trial does not read what the add trial made *)

(** C6. The multiply trial makes its own arrays [E] and [F], which are new
    objects, and runs the kernel on them; the array it leaves in [G] and the
    duration it reports are the same from any two states that agree on [N]
    and on the timer, whatever arrays, names and output the add trial (or
    anything else) left there. In both states [vectorMultiply] names the
    kernel of the module and the four arrays of the trial can be
    allocated. *)
Theorem multiply_trial_independent (N : Z) (s1 s2 : state) :
  (0 ≤ N)%Z →
  env s1 !! "N" = Some (VInt N) → env s2 !! "N" = Some (VInt N) →
  clock s1 = clock s2 → ticks s1 = ticks s2 →
  globals s1 !! "vectorMultiply" = Some (VUfunc vectorMultiply) →
  globals s2 !! "vectorMultiply" = Some (VUfunc vectorMultiply) →
  fits s1 N 4 → fits s2 N 4 →
  ∃ s1' s2' lE lF lG G d,
    exec second_trial s1 = Ok s1' ∧
    exec second_trial s2 = Ok s2' ∧
    loc_of "E" s1' = Some lE ∧ heap s1 !! lE = None ∧
    loc_of "F" s1' = Some lF ∧ heap s1 !! lF = None ∧
    loc_of "G" s1' = Some lG ∧ heap s1 !! lG = None ∧
    In (EvKernel "vectorMultiply" lE lF lG) (trace s1') ∧
    array_of "G" s1' = Some G ∧ array_of "G" s2' = Some G ∧
    float_of "vector_multiply_time" s1' = Some d ∧
    float_of "vector_multiply_time" s2' = Some d.
Proof.
  intros HN H1 H2 Hc Ht Hg1 Hg2 Hf1 Hf2.
  exists (after_second vectorMultiply (Z.to_nat N) s1),
    (after_second vectorMultiply (Z.to_nat N) s2),
    (length (heap s1)), (S (length (heap s1))), (S (S (S (length (heap s1))))),
    (zip_with (scalar vectorMultiply) (ones (Z.to_nat N)) (ones (Z.to_nat N))),
    (F64.sub (clock s1 (S (ticks s1))) (clock s1 (ticks s1))).
  rewrite (exec_evals _ _ _ (second_trial_evals _ N s1 Hg1 H1 HN Hf1)).
  rewrite (exec_evals _ _ _ (second_trial_evals _ N s2 Hg2 H2 HN Hf2)).
  unfold loc_of, array_of, float_of, after_second; cbn [env heap trace].
  rewrite <- Hc, <- Ht. simplify_map_eq.
  repeat split.
  - apply lookup_ge_None_2. lia.
  - apply lookup_ge_None_2. lia.
  - apply lookup_ge_None_2. lia.
  - apply in_or_app. right. cbn. tauto.
  - rewrite lookup_app_r by lia.
    now replace (S (S (S (length (heap s1)))) - length (heap s1)) with 3 by lia.
  - rewrite lookup_app_r by lia.
    now replace (S (S (S (length (heap s2)))) - length (heap s2)) with 3 by lia.
Qed.

Lemma multiply_trial_independent_witness :
  ∃ s1' s2' lE lF lG G d,
    exec second_trial after_add = Ok s1' ∧
    exec second_trial no_add = Ok s2' ∧
    loc_of "E" s1' = Some lE ∧ heap after_add !! lE = None ∧
    loc_of "F" s1' = Some lF ∧ heap after_add !! lF = None ∧
    loc_of "G" s1' = Some lG ∧ heap after_add !! lG = None ∧
    In (EvKernel "vectorMultiply" lE lF lG) (trace s1') ∧
    array_of "G" s1' = Some G ∧ array_of "G" s2' = Some G ∧
    float_of "vector_multiply_time" s1' = Some d ∧
    float_of "vector_multiply_time" s2' = Some d.
Proof.
  apply (multiply_trial_independent 2 after_add no_add);
    [ lia | vm_compute; reflexivity | vm_compute; reflexivity
    | reflexivity | reflexivity | reflexivity | reflexivity
    | split; [vm_compute; discriminate | intros i _; vm_compute; discriminate]
    | split; [vm_compute; discriminate | intros i _; vm_compute; discriminate] ].
Defined.

(** In [main], whatever universal function the first trial finds under the
    name [vectorAdd], [G] and the duration of the second trial are the
    same. *)
Lemma multiply_result_in_main k1 g N c m :
  g !! "vectorAdd" = Some (VUfunc k1) →
  g !! "vectorMultiply" = Some (VUfunc vectorMultiply) →
  (0 ≤ N)%Z → fits (boot g c m) N 8 →
  ∃ s, exec (main_with N) (boot g c m) = Ok s ∧
    array_of "G" s = Some (replicate (Z.to_nat N) F32.one) ∧
    float_of "vector_multiply_time" s = Some (F64.sub (c 3) (c 2)).
Proof.
  intros Hg1 Hg2 HN Hfit. exists (final k1 vectorMultiply N (boot g c m)).
  split; [now apply exec_evals, main_with_runs|].
  now rewrite final_G, final_multiply_time, vectorMultiply_ones.
Qed.

(** ** C9: the lines of a trial *)

(** C9, as stated, fails: [main] on arrays of eight elements prints six
    lines, three for each trial; the first five and the last five elements
    are two lines, not one. *)
Lemma report_is_not_two_lines :
  ∃ s, exec (main_with 8) (initial seconds plenty) = Ok s ∧
    stdout s =
      [ [Lit "C[:5] = "; StrArr (replicate 5 F32.two)];
        [Lit "C[-5:] = "; StrArr (replicate 5 F32.two)];
        [Lit "VectorAdd took "; FmtF (seconds 0); Lit " seconds"];
        [Lit "G[:5] = "; StrArr (replicate 5 F32.one)];
        [Lit "G[-5:] = "; StrArr (replicate 5 F32.one)];
        [Lit "VectorMultiply took "; FmtF (seconds 0); Lit " seconds"] ] ∧
    ¬ ∃ ls1 ls2, stdout s = ls1 ++ ls2 ∧ length ls1 = 2 ∧ length ls2 = 2.
Proof.
  eexists. split.
  { apply main_with_evals; [lia | apply plenty_fits; [reflexivity | lia]]. }
  split; [reflexivity|].
  intros (ls1 & ls2 & H & H1 & H2).
  apply (f_equal length) in H. rewrite length_app, H1, H2 in H. discriminate H.
Qed.

(** C9, amended. Each trial prints exactly three lines: the first five
    elements of its result, the last five elements, and the elapsed seconds
    under [%f]; an array shorter than five elements is printed whole. *)
Theorem report_three_lines (N : Z) (c : nat → F64.t) (m : nat → Z) :
  (0 ≤ N)%Z → fits (initial c m) N 8 →
  ∃ s C G d1 d2,
    exec (main_with N) (initial c m) = Ok s ∧
    array_of "C" s = Some C ∧ array_of "G" s = Some G ∧
    float_of "vector_add_time" s = Some d1 ∧
    float_of "vector_multiply_time" s = Some d2 ∧
    stdout s =
      [ [Lit "C[:5] = "; StrArr (slice_to 5 C)];
        [Lit "C[-5:] = "; StrArr (slice_last 5 C)];
        [Lit "VectorAdd took "; FmtF d1; Lit " seconds"];
        [Lit "G[:5] = "; StrArr (slice_to 5 G)];
        [Lit "G[-5:] = "; StrArr (slice_last 5 G)];
        [Lit "VectorMultiply took "; FmtF d2; Lit " seconds"] ] ∧
    slice_to 5 C = replicate (Z.to_nat N `min` 5) F32.two ∧
    slice_last 5 C = replicate (Z.to_nat N `min` 5) F32.two ∧
    slice_to 5 G = replicate (Z.to_nat N `min` 5) F32.one ∧
    slice_last 5 G = replicate (Z.to_nat N `min` 5) F32.one.
Proof.
  intros HN Hfit. eexists _, _, _, _, _.
  split; [now apply main_with_evals|].
  unfold initial.
  rewrite final_C, final_G, final_add_time, final_multiply_time, final_stdout.
  do 5 (split; [reflexivity|]).
  rewrite vectorAdd_ones, vectorMultiply_ones.
  unfold slice_to, slice_last.
  rewrite !take_replicate, !drop_replicate, !length_replicate.
  repeat split; f_equal; lia.
Qed.

Lemma report_three_lines_witness :
  ∃ s C G d1 d2,
    exec (main_with 3) (initial seconds plenty) = Ok s ∧
    array_of "C" s = Some C ∧ array_of "G" s = Some G ∧
    float_of "vector_add_time" s = Some d1 ∧
    float_of "vector_multiply_time" s = Some d2 ∧
    stdout s =
      [ [Lit "C[:5] = "; StrArr (slice_to 5 C)];
        [Lit "C[-5:] = "; StrArr (slice_last 5 C)];
        [Lit "VectorAdd took "; FmtF d1; Lit " seconds"];
        [Lit "G[:5] = "; StrArr (slice_to 5 G)];
        [Lit "G[-5:] = "; StrArr (slice_last 5 G)];
        [Lit "VectorMultiply took "; FmtF d2; Lit " seconds"] ] ∧
    slice_to 5 C = replicate (Z.to_nat 3 `min` 5) F32.two ∧
    slice_last 5 C = replicate (Z.to_nat 3 `min` 5) F32.two ∧
    slice_to 5 G = replicate (Z.to_nat 3 `min` 5) F32.one ∧
    slice_last 5 G = replicate (Z.to_nat 3 `min` 5) F32.one.
Proof.
  apply (report_three_lines 3 seconds plenty);
    [lia | split; [vm_compute; discriminate | intros i _; vm_compute; discriminate]].
Defined.

(** ** C4: there is no kernel to select and none is refused *)







(** ** C10: a kernel call writes to no array that exists *)

(** A kernel call returns an array object that did not exist before and
    leaves every array object and every name as it was. *)
Lemma call_frame f x y s v s' :
  call (global f) (var x) (var y) s = Ok (v, s') →
  ∃ l, v = VArr l ∧ heap s !! l = None ∧
    env s' = env s ∧ globals s' = globals s ∧
    ∀ l' a, heap s !! l' = Some a → heap s' !! l' = Some a.
Proof.
  unfold call, global, var, mbind, M_bind.
  destruct (globals s !! f) as [vf|]; cbn; [|intros; discriminate].
  destruct (env s !! x) as [vx|]; cbn; [|intros; discriminate].
  destruct (env s !! y) as [vy|]; cbn; [|intros; discriminate].
  destruct vf as [?|?|?|u]; cbn; try (intros; discriminate).
  destruct vx as [?|?|la|?]; cbn; try (intros; discriminate).
  destruct vy as [?|?|lb|?]; cbn; try (intros; discriminate).
  unfold deref.
  destruct (heap s !! la); cbn; try (intros; discriminate).
  destruct (heap s !! lb); cbn; try (intros; discriminate).
  unfold lift. destruct (apply_ufunc u _ _); cbn; try (intros; discriminate).
  unfold alloc. destruct (_ <=? _)%Z; cbn; try (intros; discriminate).
  intros [= <- <-]. exists (length (heap s)). cbn [heap env globals].
  repeat split.
  - apply lookup_ge_None_2. lia.
  - intros l' a' H. now apply heap_lookup_old.
Qed.

(** The state when line 18 has run: [C] is the array of [np.zeros]. *)
Lemma after_line_18 N c m :
  (0 ≤ N)%Z → fits (initial c m) N 8 →
  ∃ s, exec (take 4 (main_with N)) (initial c m) = Ok s ∧
    loc_of "C" s = Some 2 ∧ heap s !! 2 = Some (zeros (Z.to_nat N)).
Proof.
  intros HN Hfit. eexists. split.
  - apply exec_evals. cbn [main_with first_trial app take run].
    next_statement ltac:(run_start).
    next_statement ltac:(run_alloc).
    next_statement ltac:(run_alloc).
    next_statement ltac:(run_alloc).
    reflexivity.
  - unfold loc_of. cbn [env heap initial boot]. simplify_map_eq. split; reflexivity.
Qed.

(** The state when line 33 has run: [G] is the array of [np.zeros]. *)
Lemma after_line_33 N c m :
  (0 ≤ N)%Z → fits (initial c m) N 8 →
  ∃ s, exec (take 14 (main_with N)) (initial c m) = Ok s ∧
    loc_of "G" s = Some 6 ∧ heap s !! 6 = Some (zeros (Z.to_nat N)).
Proof.
  intros HN Hfit.
  pose proof module_vectorAdd as Hg.
  eexists. split.
  - apply exec_evals. cbn [main_with first_trial second_trial app take run].
    next_statement ltac:(run_start).
    next_statement ltac:(run_alloc).
    next_statement ltac:(run_alloc).
    next_statement ltac:(run_alloc).
    next_statement ltac:(run_start).
    next_statement ltac:(run_call).
    next_statement ltac:(run_stop).
    next_statement ltac:(run_print_slice).
    next_statement ltac:(run_print_slice).
    next_statement ltac:(run_print_time).
    next_statement ltac:(run_start).
    next_statement ltac:(run_alloc).
    next_statement ltac:(run_alloc).
    next_statement ltac:(run_alloc).
    reflexivity.
  - unfold loc_of. cbn [env heap initial boot]. simplify_map_eq. split; reflexivity.
Qed.

(** C10. When line 18 has run (the first four statements of [main]), [C]
    is the array of zeros, object 2; when line 33 has run (the first
    fourteen), [G] is the array of zeros, object 6. After [main], [A], [B],
    [E] and [F] still hold 1.0 at every index; [C] and [G] are the objects 3
    and 7 that the kernel calls made; the objects 2 and 6 still hold 0.0 at
    every index, and no name refers to them any more. The eight arrays of
    [N] elements can be allocated. *)
Theorem kernel_results_are_new (N : Z) (c : nat → F64.t) (m : nat → Z) :
  (0 ≤ N)%Z → fits (initial c m) N 8 →
  ∃ s18 s33 s,
    exec (take 4 (main_with N)) (initial c m) = Ok s18 ∧
    loc_of "C" s18 = Some 2 ∧ heap s18 !! 2 = Some (zeros (Z.to_nat N)) ∧
    exec (take 14 (main_with N)) (initial c m) = Ok s33 ∧
    loc_of "G" s33 = Some 6 ∧ heap s33 !! 6 = Some (zeros (Z.to_nat N)) ∧
    exec (main_with N) (initial c m) = Ok s ∧
    array_of "A" s = Some (ones (Z.to_nat N)) ∧
    array_of "B" s = Some (ones (Z.to_nat N)) ∧
    array_of "E" s = Some (ones (Z.to_nat N)) ∧
    array_of "F" s = Some (ones (Z.to_nat N)) ∧
    trace s =
      [EvAlloc 0; EvAlloc 1; EvAlloc 2; EvTimer 0;
       EvKernel "vectorAdd" 0 1 3; EvTimer 1;
       EvTimer 2; EvAlloc 4; EvAlloc 5; EvAlloc 6;
       EvKernel "vectorMultiply" 4 5 7; EvTimer 3] ∧
    loc_of "C" s = Some 3 ∧ loc_of "G" s = Some 7 ∧
    heap s !! 2 = Some (zeros (Z.to_nat N)) ∧
    heap s !! 6 = Some (zeros (Z.to_nat N)) ∧
    ∀ x, loc_of x s ≠ Some 2 ∧ loc_of x s ≠ Some 6.
Proof.
  intros HN Hfit.
  destruct (after_line_18 N c m HN Hfit) as (s18 & H18 & HC & HCz).
  destruct (after_line_33 N c m HN Hfit) as (s33 & H33 & HG & HGz).
  exists s18, s33, (final vectorAdd vectorMultiply N (initial c m)).
  do 6 (split; [assumption|]).
  rewrite main_with_evals by assumption.
  unfold initial.
  rewrite final_A, final_B, final_E, final_F, final_trace, final_loc_C,
    final_loc_G, final_heap.
  do 10 (split; [reflexivity|]).
  intros x; split; intros H; apply final_loc_of in H;
    destruct H as [[_ H]|[[_ H]|[[_ H]|[[_ H]|[[_ H]|[_ H]]]]]]; discriminate H.
Qed.

Lemma kernel_results_are_new_witness :
  ∃ s18 s33 s,
    exec (take 4 (main_with 4)) (initial seconds plenty) = Ok s18 ∧
    loc_of "C" s18 = Some 2 ∧ heap s18 !! 2 = Some (zeros (Z.to_nat 4)) ∧
    exec (take 14 (main_with 4)) (initial seconds plenty) = Ok s33 ∧
    loc_of "G" s33 = Some 6 ∧ heap s33 !! 6 = Some (zeros (Z.to_nat 4)) ∧
    exec (main_with 4) (initial seconds plenty) = Ok s ∧
    array_of "A" s = Some (ones (Z.to_nat 4)) ∧
    array_of "B" s = Some (ones (Z.to_nat 4)) ∧
    array_of "E" s = Some (ones (Z.to_nat 4)) ∧
    array_of "F" s = Some (ones (Z.to_nat 4)) ∧
    trace s =
      [EvAlloc 0; EvAlloc 1; EvAlloc 2; EvTimer 0;
       EvKernel "vectorAdd" 0 1 3; EvTimer 1;
       EvTimer 2; EvAlloc 4; EvAlloc 5; EvAlloc 6;
       EvKernel "vectorMultiply" 4 5 7; EvTimer 3] ∧
    loc_of "C" s = Some 3 ∧ loc_of "G" s = Some 7 ∧
    heap s !! 2 = Some (zeros (Z.to_nat 4)) ∧
    heap s !! 6 = Some (zeros (Z.to_nat 4)) ∧
    ∀ x, loc_of x s ≠ Some 2 ∧ loc_of x s ≠ Some 6.
Proof.
  apply (kernel_results_are_new 4 seconds plenty);
    [lia | split; [vm_compute; discriminate | intros i _; vm_compute; discriminate]].
Defined.

(** ** C7: the reported durations

    The duration of a trial is [timer() - start] in binary64. The lemmas of
    this section follow [SFsub] through the alignment of the two mantissas,
    the shift to the exponent of the result and the rounding, for any
    precision and any largest exponent. *)

Section Rounding.
Local Open Scope Z_scope.

Variables prec emax : Z.
Hypothesis prec_pos : 0 < prec.

Local Abbreviation fexp := (fexp prec emax).

Lemma fexp_monotone a b : a ≤ b → fexp a ≤ fexp b.
Proof. unfold SpecFloat.fexp. lia. Qed.

(** The number of binary digits of a positive number. *)
Lemma digits2_pos_bounds (p : positive) :
  2 ^ (Zpos (digits2_pos p) - 1) ≤ Zpos p < 2 ^ Zpos (digits2_pos p).
Proof.
  induction p as [p IH|p IH|]; cbn [digits2_pos].
  - rewrite Pos2Z.inj_succ, Z.pow_succ_r by lia.
    replace (Z.succ (Zpos (digits2_pos p)) - 1) with (Z.succ (Zpos (digits2_pos p) - 1)) by lia.
    rewrite Z.pow_succ_r by lia. lia.
  - rewrite Pos2Z.inj_succ, Z.pow_succ_r by lia.
    replace (Z.succ (Zpos (digits2_pos p)) - 1) with (Z.succ (Zpos (digits2_pos p) - 1)) by lia.
    rewrite Z.pow_succ_r by lia. lia.
  - cbn. lia.
Qed.

Lemma Zdigits2_le m k : 0 ≤ m < 2 ^ k → 0 ≤ k → Zdigits2 m ≤ k.
Proof.
  intros [Hm Hlt] Hk. destruct m as [|p|p]; cbn; try lia.
  destruct (Z_le_gt_dec (Zpos (digits2_pos p)) k) as [|Hgt]; [assumption|].
  pose proof (digits2_pos_bounds p) as [Hlo _].
  assert (2 ^ k ≤ 2 ^ (Zpos (digits2_pos p) - 1)) by (apply Z.pow_le_mono_r; lia).
  lia.
Qed.

Lemma iter_xO (m d : positive) : Zpos (Pos.iter xO m d) = Zpos m * 2 ^ Zpos d.
Proof.
  revert m. induction d as [|d IH] using Pos.peano_ind; intros m.
  - cbn. lia.
  - rewrite Pos.iter_succ, Pos2Z.inj_succ, Z.pow_succ_r by lia.
    rewrite Pos2Z.inj_xO, IH. lia.
Qed.

(** Shifting right. *)
Lemma shr_1_m mrs : 0 ≤ shr_m mrs → shr_m (shr_1 mrs) = shr_m mrs / 2.
Proof.
  destruct mrs as [m r s]; cbn [shr_m]. intros Hm.
  destruct m as [|[p|p|]|p]; cbn [shr_1 shr_m]; [reflexivity| | |reflexivity|lia].
  - apply Z.div_unique with (r := 1); lia.
  - apply Z.div_unique with (r := 0); lia.
Qed.

Lemma iter_pos_iter {A} (f : A → A) p x :
  SpecFloat.iter_pos f p x = Pos.iter f x p.
Proof.
  revert x.
  induction p as [p IH|p IH|]; intros x; cbn [SpecFloat.iter_pos Pos.iter].
  - now rewrite !IH, !Pos.iter_swap.
  - now rewrite !IH.
  - reflexivity.
Qed.

Lemma iter_shr_1_m p mrs :
  0 ≤ shr_m mrs →
  shr_m (SpecFloat.iter_pos shr_1 p mrs) = shr_m mrs / 2 ^ Zpos p.
Proof.
  intros Hm. rewrite iter_pos_iter.
  induction p as [|p IH] using Pos.peano_ind.
  - cbn [Pos.iter]. rewrite shr_1_m by assumption. reflexivity.
  - rewrite Pos.iter_succ, shr_1_m.
    + rewrite IH, Pos2Z.inj_succ, Z.pow_succ_r by lia.
      rewrite Z.div_div by lia. f_equal. lia.
    + rewrite IH. apply Z.div_pos; lia.
Qed.

Lemma shr_fexp_exact m e :
  0 ≤ m →
  ∃ mrs,
    shr_fexp prec emax m e loc_Exact = (mrs, Z.max e (fexp (Zdigits2 m + e))) ∧
    shr_m mrs = m / 2 ^ (Z.max e (fexp (Zdigits2 m + e)) - e) ∧
    (fexp (Zdigits2 m + e) ≤ e → mrs = Build_shr_record m false false).
Proof.
  intros Hm. unfold shr_fexp, shr. cbn [shr_record_of_loc].
  destruct (fexp (Zdigits2 m + e) - e) as [|p|p] eqn:Hn.
  - eexists; split; [f_equal; lia|]. split; [|reflexivity].
    cbn [shr_m]. replace (_ - e) with 0 by lia. now rewrite Z.div_1_r.
  - eexists; split; [f_equal; lia|]. split; [|lia].
    rewrite iter_shr_1_m by assumption. cbn [shr_m]. do 2 f_equal. lia.
  - eexists; split; [f_equal; lia|]. split; [|reflexivity].
    cbn [shr_m]. replace (_ - e) with 0 by lia. now rewrite Z.div_1_r.
Qed.

Lemma round_nearest_even_bounds m l :
  m ≤ round_nearest_even m l ≤ m + 1.
Proof.
  unfold round_nearest_even.
  destruct l as [|[| |]]; try destruct (Z.even m); lia.
Qed.

(** Rounding [m * 2^e] does not overflow when it lies below a number
    [my * 2^ey] of the format. *)
Lemma binary_round_aux_below m e my ey :
  0 ≤ m → e ≤ ey → ey ≤ emax - prec →
  fexp (Zpos (digits2_pos my) + ey) = ey →
  m < Zpos my * 2 ^ (ey - e) →
  finite_nonneg (binary_round_aux prec emax false m e loc_Exact).
Proof.
  intros Hm He Hey Hcan Hlt.
  pose proof (digits2_pos_bounds my) as [_ Hmy].
  set (dy := Zpos (digits2_pos my)) in *.
  assert (Hdy : 0 < dy) by (unfold dy; lia).
  (* the digits of [m] *)
  assert (Hd : Zdigits2 m + e ≤ dy + ey).
  { enough (Zdigits2 m ≤ dy + ey - e) by lia.
    apply Zdigits2_le; [split; [assumption|] | lia].
    replace (dy + ey - e) with (dy + (ey - e)) by lia.
    rewrite Z.pow_add_r by lia.
    assert (0 < 2 ^ (ey - e)) by (apply Z.pow_pos_nonneg; lia). nia. }
  assert (Hf : fexp (Zdigits2 m + e) ≤ ey).
  { rewrite <- Hcan. now apply fexp_monotone. }
  unfold binary_round_aux.
  destruct (shr_fexp_exact m e Hm) as (mrs1 & -> & Hm1 & Hx1).
  set (e1 := Z.max e (fexp (Zdigits2 m + e))) in *.
  assert (He1 : e ≤ e1 ≤ ey) by (unfold e1; lia).
  set (m1 := round_nearest_even (shr_m mrs1) (loc_of_shr_record mrs1)).
  assert (Hpow : 0 < 2 ^ (e1 - e)) by (apply Z.pow_pos_nonneg; lia).
  assert (Hm1' : 0 ≤ shr_m mrs1) by (rewrite Hm1; apply Z.div_pos; lia).
  pose proof (round_nearest_even_bounds (shr_m mrs1) (loc_of_shr_record mrs1)) as Hr.
  fold m1 in Hr.
  assert (Hm1nn : 0 ≤ m1) by lia.
  (* the rounded mantissa is below [my * 2^(ey - e1)] *)
  assert (Hd1 : Zdigits2 m1 + e1 ≤ dy + ey).
  { enough (Zdigits2 m1 ≤ dy + ey - e1) by lia.
    apply Zdigits2_le; [split; [assumption|] | lia].
    destruct (Z_le_gt_dec (fexp (Zdigits2 m + e)) e) as [Hle|Hgt].
    - (* nothing is shifted out *)
      assert (m1 = m) as ->.
      { unfold m1. rewrite (Hx1 Hle). reflexivity. }
      replace e1 with e by lia.
      replace (dy + ey - e) with (dy + (ey - e)) by lia.
      rewrite Z.pow_add_r by lia.
      assert (0 < 2 ^ (ey - e)) by (apply Z.pow_pos_nonneg; lia). nia.
    - assert (Hsplit : 2 ^ (ey - e) = 2 ^ (e1 - e) * 2 ^ (ey - e1)).
      { rewrite <- Z.pow_add_r by lia. f_equal. lia. }
      assert (Hq : shr_m mrs1 < Zpos my * 2 ^ (ey - e1)).
      { rewrite Hm1. apply Z.div_lt_upper_bound; [assumption|].
        rewrite Hsplit in Hlt. lia. }
      replace (dy + ey - e1) with (dy + (ey - e1)) by lia.
      rewrite Z.pow_add_r by lia.
      assert (0 < 2 ^ (ey - e1)) by (apply Z.pow_pos_nonneg; lia). nia. }
  assert (Hf1 : fexp (Zdigits2 m1 + e1) ≤ ey).
  { rewrite <- Hcan. now apply fexp_monotone. }
  destruct (shr_fexp_exact m1 e1 Hm1nn) as (mrs2 & -> & Hm2 & _).
  assert (Hpow2 : 0 < 2 ^ (Z.max e1 (fexp (Zdigits2 m1 + e1)) - e1))
    by (apply Z.pow_pos_nonneg; lia).
  assert (Hm2' : 0 ≤ shr_m mrs2) by (rewrite Hm2; apply Z.div_pos; lia).
  destruct (shr_m mrs2) as [|p|p]; cbn [finite_nonneg]; [exact I | | lia].
  destruct (Z.leb_spec (Z.max e1 (fexp (Zdigits2 m1 + e1))) (emax - prec));
    [exact I | lia].
Qed.

Lemma shl_align_spec m e e' :
  ∃ mz, shl_align m e e' = (mz, Z.min e e') ∧ Zpos mz = Zpos m * 2 ^ (e - Z.min e e').
Proof.
  unfold shl_align. destruct (e' - e) as [|d|d] eqn:Hd.
  - exists m. split; [f_equal; lia|]. replace (e - _) with 0 by lia. lia.
  - exists m. split; [f_equal; lia|]. replace (e - _) with 0 by lia. lia.
  - exists (Pos.iter xO m d). split; [f_equal; lia|].
    rewrite iter_xO. do 2 f_equal. lia.
Qed.

Lemma binary_round_below m e my ey :
  e ≤ ey → ey ≤ emax - prec →
  fexp (Zpos (digits2_pos my) + ey) = ey →
  Zpos m < Zpos my * 2 ^ (ey - e) →
  finite_nonneg (binary_round prec emax false m e).
Proof.
  intros He Hey Hcan Hlt. unfold binary_round.
  destruct (shl_align_spec m e (fexp (Zpos (digits2_pos m) + e))) as (mz & -> & Hmz).
  set (ez := Z.min e _) in *.
  assert (Hez : ez ≤ e) by (unfold ez; lia).
  apply (binary_round_aux_below _ _ my ey); try lia.
  rewrite Hmz.
  replace (ey - ez) with ((ey - e) + (e - ez)) by lia.
  rewrite Z.pow_add_r by lia.
  assert (0 < 2 ^ (e - ez)) by (apply Z.pow_pos_nonneg; lia). nia.
Qed.

(** A canonical mantissa has at most [prec] digits, and exactly [prec]
    above the least exponent. *)
Lemma canonical_digits m e :
  canonical_mantissa prec emax m e = true →
  Zpos (digits2_pos m) ≤ prec ∧ emin prec emax ≤ e ∧
  (emin prec emax < e → Zpos (digits2_pos m) = prec).
Proof.
  unfold canonical_mantissa, SpecFloat.fexp. intros H%Z.eqb_eq. lia.
Qed.

Lemma SFleb_finite_pos mx ex my ey :
  SFleb (S754_finite false mx ex) (S754_finite false my ey) = true →
  ex < ey ∨ (ex = ey ∧ Zpos mx ≤ Zpos my).
Proof.
  unfold SFleb, SFcompare.
  destruct (Z.compare_spec ex ey) as [->|Hlt|Hgt]; [|lia|discriminate].
  rewrite Pos.compare_cont_spec. cbn [Pos.switch_Eq].
  destruct (Pos.compare_spec mx my); try discriminate; lia.
Qed.

(** The difference of two numbers [0 ≤ x ≤ y] of the format, [y] finite,
    is a zero or a positive finite number: it is not an infinity and not a
    NaN. *)
Lemma SFsub_finite_nonneg x y :
  valid_binary prec emax x = true → valid_binary prec emax y = true →
  SFleb (S754_zero false) x = true → SFleb x y = true →
  finite_nonneg y → finite_nonneg (SFsub prec emax y x).
Proof.
  intros Vx Vy H0 Hxy Fy.
  destruct x as [sx|sx| |sx mx ex]; try discriminate;
    destruct y as [sy|sy| |sy my ey]; try discriminate; try contradiction.
  - (* 0 - 0 *) now destruct sx, sy.
  - (* y - 0 *) exact Fy.
  - (* inf *) now destruct sx.
  - now destruct sx.
  - (* 0 - x with x > 0 *) now destruct sx.
  - destruct sx; [discriminate|]. destruct sy; [discriminate|].
    cbn [valid_binary] in Vx, Vy. unfold bounded in Vx, Vy.
    apply andb_true_iff in Vx as [Cx Bx%Z.leb_le], Vy as [Cy By%Z.leb_le].
    pose proof (canonical_digits _ _ Cx) as (Hdx & Hex & _).
    pose proof (canonical_digits _ _ Cy) as (Hdy & Hey & Hny).
    apply Z.eqb_eq in Cy.
    pose proof (digits2_pos_bounds mx) as [_ Hmx].
    pose proof (digits2_pos_bounds my) as [Hmy _].
    apply SFleb_finite_pos in Hxy.
    assert (He : ex ≤ ey) by lia.
    unfold SFsub. cbn [cond_Zopp].
    destruct (shl_align_spec my ey (Z.min ey ex)) as (my' & -> & Hmy').
    destruct (shl_align_spec mx ex (Z.min ey ex)) as (mx' & -> & Hmx').
    cbn [fst].
    replace (Z.min ey (Z.min ey ex)) with ex in Hmy' by lia.
    replace (Z.min ex (Z.min ey ex)) with ex in Hmx' by lia.
    replace (ex - ex) with 0 in Hmx' by lia. rewrite Z.mul_1_r in Hmx'.
    replace (Z.min ey ex) with ex by lia.
    assert (Hge : Zpos mx' ≤ Zpos my').
    { rewrite Hmx', Hmy'. destruct Hxy as [Hlt|[-> Hle]].
      - assert (Hp : 2 ^ prec ≤ Zpos my * 2 ^ (ey - ex)).
        { rewrite Hny in Hmy by lia.
          replace prec with ((prec - 1) + 1) at 1 by lia.
          rewrite Z.pow_add_r by lia.
          assert (2 ^ 1 ≤ 2 ^ (ey - ex)) by (apply Z.pow_le_mono_r; lia).
          assert (0 < 2 ^ (prec - 1)) by (apply Z.pow_pos_nonneg; lia). nia. }
        assert (2 ^ Zpos (digits2_pos mx) ≤ 2 ^ prec) by (apply Z.pow_le_mono_r; lia).
        lia.
      - rewrite Z.sub_diag. lia. }
    unfold binary_normalize.
    destruct (Zpos my' - Zpos mx') as [|m|m] eqn:Hm; [exact I | | lia].
    apply (binary_round_below _ _ my ey); try assumption. lia.
Qed.

End Rounding.

Lemma finite_nonneg_iff (x : F64.t) :
  finite_nonneg x ↔ F64.is_finite x = true ∧ F64.leb F64.zero x = true.
Proof.
  destruct x as [s|s| |s m e]; try destruct s; cbn; intuition discriminate.
Qed.

(** The difference of two readings of a wall clock that did not go back. *)
Lemma duration_finite_nonneg (start stop : F64.t) :
  reading start → reading stop → F64.leb start stop = true →
  F64.is_finite (F64.sub stop start) = true ∧
  F64.leb F64.zero (F64.sub stop start) = true.
Proof.
  intros (Vx & Fx & Px) (Vy & Fy & Py) Hle.
  apply finite_nonneg_iff.
  apply SFsub_finite_nonneg; try assumption; [reflexivity|].
  now apply finite_nonneg_iff.
Qed.

Lemma seconds_reading k : reading (seconds k).
Proof. destruct k as [|[|[|k]]]; repeat split. Qed.

Lemma seconds_monotone : monotone seconds.
Proof.
  intros i j Hij.
  destruct i as [|[|[|i]]], j as [|[|[|j]]]; try reflexivity; lia.
Qed.

(** Three seconds between the first and the last reading of [seconds]. *)
Example three_seconds :
  F64.sub (seconds 3) (seconds 0) = S754_finite false 6755399441055744 (-51).
Proof. reflexivity. Qed.

(** C7. The timer is a wall clock: its readings are finite numbers of
    seconds not below 0.0, and it never goes back. Then the duration that
    each trial stores and prints, [timer() - start] in binary64, is a finite
    number and [0.0 <=] it. The eight arrays of [N] elements can be
    allocated. *)
Theorem durations_finite_nonneg (N : Z) (c : nat → F64.t) (m : nat → Z) :
  (0 ≤ N)%Z → (∀ k, reading (c k)) → monotone c → fits (initial c m) N 8 →
  ∃ s d1 d2,
    exec (main_with N) (initial c m) = Ok s ∧
    float_of "vector_add_time" s = Some d1 ∧
    float_of "vector_multiply_time" s = Some d2 ∧
    In [Lit "VectorAdd took "; FmtF d1; Lit " seconds"] (stdout s) ∧
    In [Lit "VectorMultiply took "; FmtF d2; Lit " seconds"] (stdout s) ∧
    F64.is_finite d1 = true ∧ F64.leb F64.zero d1 = true ∧
    F64.is_finite d2 = true ∧ F64.leb F64.zero d2 = true.
Proof.
  intros HN Hr Hm Hfit.
  exists (final vectorAdd vectorMultiply N (initial c m)),
    (F64.sub (c 1%nat) (c 0%nat)), (F64.sub (c 3%nat) (c 2%nat)).
  rewrite main_with_evals by assumption.
  unfold initial.
  rewrite final_add_time, final_multiply_time, final_stdout.
  do 3 (split; [reflexivity|]).
  split; [right; right; left; reflexivity|].
  split; [do 5 right; left; reflexivity|].
  destruct (duration_finite_nonneg (c 0%nat) (c 1%nat)) as [F1 P1];
    [apply Hr | apply Hr | apply Hm; lia |].
  destruct (duration_finite_nonneg (c 2%nat) (c 3%nat)) as [F2 P2];
    [apply Hr | apply Hr | apply Hm; lia |].
  auto.
Qed.

Lemma durations_finite_nonneg_witness :
  ∃ s d1 d2,
    exec (main_with 5) (initial seconds plenty) = Ok s ∧
    float_of "vector_add_time" s = Some d1 ∧
    float_of "vector_multiply_time" s = Some d2 ∧
    In [Lit "VectorAdd took "; FmtF d1; Lit " seconds"] (stdout s) ∧
    In [Lit "VectorMultiply took "; FmtF d2; Lit " seconds"] (stdout s) ∧
    F64.is_finite d1 = true ∧ F64.leb F64.zero d1 = true ∧
    F64.is_finite d2 = true ∧ F64.leb F64.zero d2 = true.
Proof.
  apply (durations_finite_nonneg 5 seconds plenty);
    [ lia | exact seconds_reading | exact seconds_monotone
    | split; [vm_compute; discriminate | intros i _; vm_compute; discriminate] ].
Defined.

(** ** The kernels keep their dtype

    [float32(float32, float32)]: the sum and the product of two binary32
    numbers are binary32 numbers. The lemmas follow [binary_round_aux] for
    any precision and any largest exponent. *)

Section Closure.
Local Open Scope Z_scope.

Variables prec emax : Z.
Hypothesis prec_pos : 0 < prec.
Hypothesis prec_lt_emax : prec < emax.

Local Abbreviation fexp := (fexp prec emax).
Local Abbreviation emin := (emin prec emax).

Lemma Zdigits2_bounds m :
  0 < m → 2 ^ (Zdigits2 m - 1) ≤ m < 2 ^ Zdigits2 m.
Proof. destruct m as [|p|p]; try lia. intros _. apply digits2_pos_bounds. Qed.

Lemma Zdigits2_pos m : 0 < m → 0 < Zdigits2 m.
Proof. destruct m; cbn; lia. Qed.

Lemma Zdigits2_unique m k :
  2 ^ (k - 1) ≤ m < 2 ^ k → 0 < k → Zdigits2 m = k.
Proof.
  intros [Hlo Hhi] Hk.
  assert (Hm : 0 < m).
  { assert (0 < 2 ^ (k - 1)) by (apply Z.pow_pos_nonneg; lia). lia. }
  pose proof (Zdigits2_bounds m Hm) as [Hlo' Hhi'].
  pose proof (Zdigits2_pos m Hm) as Hd.
  destruct (Z.lt_trichotomy (Zdigits2 m) k) as [Hlt|[Heq|Hgt]]; [|exact Heq|].
  - assert (2 ^ Zdigits2 m ≤ 2 ^ (k - 1)) by (apply Z.pow_le_mono_r; lia). lia.
  - assert (2 ^ k ≤ 2 ^ (Zdigits2 m - 1)) by (apply Z.pow_le_mono_r; lia). lia.
Qed.

Lemma Zdigits2_monotone a b : 0 < a ≤ b → Zdigits2 a ≤ Zdigits2 b.
Proof.
  intros [Ha Hab].
  pose proof (Zdigits2_bounds a Ha) as [Hlo _].
  pose proof (Zdigits2_bounds b ltac:(lia)) as [_ Hhi].
  destruct (Z_le_gt_dec (Zdigits2 a) (Zdigits2 b)) as [|Hgt]; [assumption|].
  assert (2 ^ Zdigits2 b ≤ 2 ^ (Zdigits2 a - 1))
    by (apply Z.pow_le_mono_r; pose proof (Zdigits2_pos b); lia).
  lia.
Qed.

Lemma Zdigits2_mul_pow2 m k :
  0 < m → 0 ≤ k → Zdigits2 (m * 2 ^ k) = Zdigits2 m + k.
Proof.
  intros Hm Hk.
  pose proof (Zdigits2_bounds m Hm) as [Hlo Hhi].
  pose proof (Zdigits2_pos m Hm) as Hd.
  assert (Hp : 0 < 2 ^ k) by (apply Z.pow_pos_nonneg; lia).
  apply Zdigits2_unique; [|lia].
  replace (Zdigits2 m + k - 1) with ((Zdigits2 m - 1) + k) by lia.
  rewrite !Z.pow_add_r by lia. nia.
Qed.

Lemma Zdigits2_div_pow2 m n :
  0 < m → 0 ≤ n < Zdigits2 m → Zdigits2 (m / 2 ^ n) = Zdigits2 m - n.
Proof.
  intros Hm Hn.
  pose proof (Zdigits2_bounds m Hm) as [Hlo Hhi].
  assert (Hp : 0 < 2 ^ n) by (apply Z.pow_pos_nonneg; lia).
  apply Zdigits2_unique; [|lia]. split.
  - apply Z.div_le_lower_bound; [assumption|].
    rewrite <- Z.pow_add_r by lia.
    now replace (n + (Zdigits2 m - n - 1)) with (Zdigits2 m - 1) by lia.
  - apply Z.div_lt_upper_bound; [assumption|].
    rewrite <- Z.pow_add_r by lia.
    now replace (n + (Zdigits2 m - n)) with (Zdigits2 m) by lia.
Qed.

Lemma div_pow2_pos m n : 0 < m → 0 ≤ n → 0 < m / 2 ^ n → n < Zdigits2 m.
Proof.
  intros Hm Hn Hq.
  pose proof (Zdigits2_bounds m Hm) as [_ Hhi].
  destruct (Z_lt_ge_dec n (Zdigits2 m)) as [|Hge]; [assumption|].
  assert (2 ^ Zdigits2 m ≤ 2 ^ n)
    by (apply Z.pow_le_mono_r; pose proof (Zdigits2_pos m Hm); lia).
  rewrite Z.div_small in Hq by lia. lia.
Qed.

(** Shifting to the exponent of the format gives a canonical mantissa. *)
Lemma shift_canonical m e :
  0 < m → e ≤ fexp (Zdigits2 m + e) →
  0 < m / 2 ^ (fexp (Zdigits2 m + e) - e) →
  fexp (Zdigits2 (m / 2 ^ (fexp (Zdigits2 m + e) - e)) + fexp (Zdigits2 m + e)) =
    fexp (Zdigits2 m + e).
Proof.
  intros Hm He Hq.
  assert (Hn : fexp (Zdigits2 m + e) - e < Zdigits2 m)
    by (apply div_pow2_pos; [assumption | lia | assumption]).
  rewrite Zdigits2_div_pow2 by lia. f_equal. lia.
Qed.

Lemma fexp_ge_emin a : emin ≤ fexp a.
Proof. unfold SpecFloat.fexp. lia. Qed.

(** The result of rounding is a number of the format. *)
Lemma binary_round_aux_valid sx m e :
  0 < m → e ≤ fexp (Zdigits2 m + e) →
  valid_binary prec emax (binary_round_aux prec emax sx m e loc_Exact) = true.
Proof.
  intros Hm He. unfold binary_round_aux.
  destruct (shr_fexp_exact prec emax m e ltac:(lia)) as (mrs1 & -> & Hm1 & _).
  replace (Z.max e (fexp (Zdigits2 m + e))) with (fexp (Zdigits2 m + e)) in * by lia.
  set (e1 := fexp (Zdigits2 m + e)) in *.
  set (m1 := round_nearest_even (shr_m mrs1) (loc_of_shr_record mrs1)).
  pose proof (round_nearest_even_bounds (shr_m mrs1) (loc_of_shr_record mrs1)) as Hr.
  fold m1 in Hr.
  assert (Hp1 : 0 < 2 ^ (e1 - e)) by (apply Z.pow_pos_nonneg; lia).
  assert (Hq1 : 0 ≤ shr_m mrs1) by (rewrite Hm1; apply Z.div_pos; lia).
  destruct (shr_fexp_exact prec emax m1 e1 ltac:(lia)) as (mrs2 & -> & Hm2 & Hx2).
  destruct (shr_m mrs2) as [|p|p] eqn:Hp; [reflexivity | | reflexivity].
  destruct (Z.leb_spec (Z.max e1 (fexp (Zdigits2 m1 + e1))) (emax - prec)) as [Hle|];
    [|reflexivity].
  cbn [valid_binary]. unfold bounded, canonical_mantissa.
  apply andb_true_iff. split; [|now apply Z.leb_le]. apply Z.eqb_eq.
  change (Zpos (digits2_pos p)) with (Zdigits2 (Zpos p)).
  (* the rounded mantissa is not above its exponent *)
  assert (Hm1pos : 0 < m1).
  { destruct (Z_lt_le_dec 0 m1) as [|H0]; [assumption|].
    assert (m1 = 0) as Hz by lia. rewrite Hz, Zdiv_0_l in Hm2. lia. }
  assert (He1 : e1 ≤ fexp (Zdigits2 m1 + e1)).
  { destruct (Z_lt_le_dec 0 (shr_m mrs1)) as [Hpos|Hzero].
    - rewrite Hm1 in Hpos.
      pose proof (shift_canonical m e Hm He Hpos) as Hc. fold e1 in Hc.
      rewrite <- Hm1 in Hc. rewrite <- Hc at 1.
      apply fexp_monotone.
      enough (Zdigits2 (shr_m mrs1) ≤ Zdigits2 m1) by lia.
      apply Zdigits2_monotone. rewrite Hm1 in *. lia.
    - (* everything was shifted out: the exponent is the least one *)
      assert (Hs : shr_m mrs1 = 0) by lia.
      assert (m1 = 1) as -> by lia.
      rewrite Hm1 in Hs.
      pose proof (Zdigits2_bounds m Hm) as [Hlo _].
      pose proof (Zdigits2_pos m Hm) as Hd.
      assert (Hn : Zdigits2 m ≤ e1 - e).
      { destruct (Z_le_gt_dec (Zdigits2 m) (e1 - e)) as [|Hgt]; [assumption|].
        assert (2 ^ (e1 - e) ≤ 2 ^ (Zdigits2 m - 1)) by (apply Z.pow_le_mono_r; lia).
        assert (1 ≤ m / 2 ^ (e1 - e)) by (apply Z.div_le_lower_bound; lia). lia. }
      cbn [Zdigits2 digits2_pos]. unfold e1, SpecFloat.fexp in *. lia. }
  replace (Z.max e1 (fexp (Zdigits2 m1 + e1))) with (fexp (Zdigits2 m1 + e1)) in * by lia.
  rewrite Hm2. apply shift_canonical; try assumption. rewrite <- Hm2. lia.
Qed.


Lemma binary_round_valid sx m e :
  valid_binary prec emax (binary_round prec emax sx m e) = true.
Proof.
  unfold binary_round.
  destruct (shl_align_spec m e (fexp (Zpos (digits2_pos m) + e))) as (mz & -> & Hmz).
  apply binary_round_aux_valid; [lia|].
  rewrite Hmz, Zdigits2_mul_pow2 by lia. cbn [Zdigits2].
  replace (Zpos (digits2_pos m) + (e - Z.min e (fexp (Zpos (digits2_pos m) + e))) +
           Z.min e (fexp (Zpos (digits2_pos m) + e)))
    with (Zpos (digits2_pos m) + e) by lia.
  lia.
Qed.

Lemma binary_normalize_valid m e sz :
  valid_binary prec emax (binary_normalize prec emax m e sz) = true.
Proof. destruct m; cbn [binary_normalize]; auto using binary_round_valid. Qed.

(** The sum of two numbers of the format is a number of the format. *)
Lemma SFadd_valid x y :
  valid_binary prec emax x = true → valid_binary prec emax y = true →
  valid_binary prec emax (SFadd prec emax x y) = true.
Proof.
  intros Vx Vy.
  destruct x as [sx|sx| |sx mx ex], y as [sy|sy| |sy my ey];
    try destruct sx; try destruct sy; try reflexivity; try assumption.
  all: apply binary_normalize_valid.
Qed.

Lemma Zdigits2_pow2 k : 0 ≤ k → Zdigits2 (2 ^ k) = k + 1.
Proof.
  intros Hk. apply Zdigits2_unique; [|lia].
  replace (k + 1 - 1) with k by lia.
  split; [lia|]. apply Z.pow_lt_mono_r; lia.
Qed.

(** The product has at least the digits of the factors less one. *)
Lemma digits2_pos_mul (a b : positive) :
  Zpos (digits2_pos a) + Zpos (digits2_pos b) - 1 ≤ Zpos (digits2_pos (a * b)).
Proof.
  pose proof (digits2_pos_bounds a) as [Ha _].
  pose proof (digits2_pos_bounds b) as [Hb _].
  set (da := Zpos (digits2_pos a)) in *. set (db := Zpos (digits2_pos b)) in *.
  assert (Hda : 0 < da) by (unfold da; lia).
  assert (Hdb : 0 < db) by (unfold db; lia).
  assert (H : 2 ^ (da + db - 2) ≤ Zpos (a * b)).
  { replace (da + db - 2) with ((da - 1) + (db - 1)) by lia.
    rewrite Z.pow_add_r, Pos2Z.inj_mul by lia.
    assert (0 < 2 ^ (da - 1)) by (apply Z.pow_pos_nonneg; lia).
    assert (0 < 2 ^ (db - 1)) by (apply Z.pow_pos_nonneg; lia). nia. }
  assert (Hp : 0 < 2 ^ (da + db - 2)) by (apply Z.pow_pos_nonneg; lia).
  pose proof (Zdigits2_monotone _ _ (conj Hp H)) as Hm.
  rewrite Zdigits2_pow2 in Hm by lia. cbn [Zdigits2] in Hm. lia.
Qed.

(** The product of two numbers of the format is a number of the format. *)
Lemma SFmul_valid x y :
  valid_binary prec emax x = true → valid_binary prec emax y = true →
  valid_binary prec emax (SFmul prec emax x y) = true.
Proof.
  intros Vx Vy.
  destruct x as [sx|sx| |sx mx ex], y as [sy|sy| |sy my ey]; try reflexivity.
  cbn [valid_binary SFmul] in *. unfold bounded in Vx, Vy.
  apply andb_true_iff in Vx as [Cx _], Vy as [Cy _].
  pose proof (canonical_digits _ _ _ _ Cx) as (Hdx & Hex & Hnx).
  pose proof (canonical_digits _ _ _ _ Cy) as (Hdy & Hey & Hny).
  pose proof (digits2_pos_mul mx my) as Hd.
  apply binary_round_aux_valid; [lia|]. cbn [Zdigits2].
  unfold SpecFloat.fexp, SpecFloat.emin in *. lia.
Qed.

(** Rounding is never a NaN. *)
Lemma binary_round_aux_not_nan sx m e :
  0 ≤ m → binary_round_aux prec emax sx m e loc_Exact ≠ S754_nan.
Proof.
  intros Hm. unfold binary_round_aux.
  destruct (shr_fexp_exact prec emax m e Hm) as (mrs1 & -> & Hm1 & _).
  set (e1 := Z.max e _) in *.
  pose proof (round_nearest_even_bounds (shr_m mrs1) (loc_of_shr_record mrs1)) as Hr.
  set (m1 := round_nearest_even _ _) in *.
  assert (0 < 2 ^ (e1 - e)) by (apply Z.pow_pos_nonneg; unfold e1; lia).
  assert (0 ≤ shr_m mrs1) by (rewrite Hm1; apply Z.div_pos; lia).
  destruct (shr_fexp_exact prec emax m1 e1 ltac:(lia)) as (mrs2 & -> & Hm2 & _).
  assert (0 < 2 ^ (Z.max e1 (fexp (Zdigits2 m1 + e1)) - e1))
    by (apply Z.pow_pos_nonneg; lia).
  assert (0 ≤ shr_m mrs2) by (rewrite Hm2; apply Z.div_pos; lia).
  destruct (shr_m mrs2); [discriminate | | lia].
  destruct (Z.leb _ _); discriminate.
Qed.

Lemma binary_normalize_not_nan m e sz :
  binary_normalize prec emax m e sz ≠ S754_nan.
Proof.
  destruct m as [|p|p]; cbn [binary_normalize]; [discriminate| |];
    unfold binary_round;
    destruct (shl_align_spec p e (fexp (Zpos (digits2_pos p) + e))) as (mz & -> & _);
    apply binary_round_aux_not_nan; lia.
Qed.

(** Shifting out the zeros of [m * 2^k] leaves [m] and an exact location. *)
Lemma shr_zeros (k m : positive) :
  SpecFloat.iter_pos shr_1 k (Build_shr_record (Zpos (Pos.iter xO m k)) false false) =
    Build_shr_record (Zpos m) false false.
Proof.
  rewrite iter_pos_iter. revert m.
  induction k as [|k IH] using Pos.peano_ind; intros m.
  - reflexivity.
  - rewrite !Pos.iter_succ, <- (Pos.iter_swap k _ xO m), IH. reflexivity.
Qed.

(** Rounding [m * 2^k] at the exponent [e - k] gives back [m] at [e], when
    [m] at [e] is a number of the format. *)
Lemma binary_round_aux_representable sx (m k : positive) e :
  bounded prec emax m e = true →
  binary_round_aux prec emax sx (Zpos (Pos.iter xO m k)) (e - Zpos k) loc_Exact =
    S754_finite sx m e.
Proof.
  unfold bounded, canonical_mantissa.
  intros [Hc%Z.eqb_eq Hb]%andb_true_iff.
  assert (Hd : Zdigits2 (Zpos (Pos.iter xO m k)) + (e - Zpos k) = Zpos (digits2_pos m) + e).
  { rewrite iter_xO, Zdigits2_mul_pow2 by lia. cbn [Zdigits2]. lia. }
  unfold binary_round_aux, shr_fexp. rewrite Hd, Hc.
  replace (e - (e - Zpos k)) with (Zpos k) by lia.
  cbn [shr_record_of_loc shr]. rewrite shr_zeros.
  cbn [shr_m loc_of_shr_record round_nearest_even Zdigits2].
  replace (e - Zpos k + Zpos k) with e by lia.
  rewrite Hc, Z.sub_diag. cbn [shr shr_m]. now rewrite Hb.
Qed.

End Closure.

(** ** The two kernels as functions on arrays *)

Lemma add_comm (x y : F32.t) : F32.add x y = F32.add y x.
Proof.
  unfold F32.add.
  destruct x as [sx|sx| |sx mx ex], y as [sy|sy| |sy my ey];
    try destruct sx; try destruct sy; try reflexivity.
  all: cbn [SFadd]; now rewrite Z.min_comm, Z.add_comm.
Qed.

Lemma mul_comm (x y : F32.t) : F32.mul x y = F32.mul y x.
Proof.
  unfold F32.mul.
  destruct x as [sx|sx| |sx mx ex], y as [sy|sy| |sy my ey];
    cbn [SFmul]; rewrite ?(xorb_comm sx sy); try reflexivity.
  now rewrite Pos.mul_comm, Z.add_comm.
Qed.

Lemma zip_with_comm (f : F32.t → F32.t → F32.t) (a b : ndarray) :
  (∀ x y, f x y = f y x) → zip_with f a b = zip_with f b a.
Proof.
  intros Hf. revert b. induction a as [|x a IH]; intros [|y b]; cbn; try reflexivity.
  now rewrite Hf, IH.
Qed.

Lemma apply_ufunc_comm u (a b : ndarray) :
  (∀ x y, scalar u x y = scalar u y x) → apply_ufunc u a b = apply_ufunc u b a.
Proof.
  intros Hf. unfold apply_ufunc.
  destruct (decide (length a = length b)) as [Hl|Hl].
  - rewrite decide_True by congruence. f_equal. now apply zip_with_comm.
  - rewrite decide_False by congruence.
    destruct a as [|x [|x' a]], b as [|y [|y' b]]; cbn [length] in Hl;
      try congruence; cbv beta iota; try reflexivity.
    all: f_equal; apply map_ext; intros z; apply Hf.
Qed.

(** X1. The order of the two arguments does not matter to either kernel:
    the same array, or the same failure, comes back. *)
Theorem kernels_commute (a b : ndarray) :
  apply_ufunc vectorAdd a b = apply_ufunc vectorAdd b a ∧
  apply_ufunc vectorMultiply a b = apply_ufunc vectorMultiply b a.
Proof.
  split; apply apply_ufunc_comm; intros x y; [apply add_comm | apply mul_comm].
Qed.

Lemma zip_with_lookup (f : F32.t → F32.t → F32.t) (a b : ndarray) i :
  length a = length b → i < length a →
  ∃ x y, a !! i = Some x ∧ b !! i = Some y ∧ zip_with f a b !! i = Some (f x y).
Proof.
  intros Hl Hi.
  destruct (lookup_lt_is_Some_2 a i Hi) as [x Hx].
  destruct (lookup_lt_is_Some_2 b i) as [y Hy]; [lia|].
  exists x, y. repeat split; try assumption.
  apply lookup_zip_with_Some. eauto.
Qed.

Lemma lookup_map (f : F32.t → F32.t) (l : list F32.t) i :
  map f l !! i = f <$> (l !! i).
Proof. revert i. induction l as [|x l IH]; intros [|i]; cbn; auto. Qed.

Lemma length_one (a : ndarray) : length a = 1 → ∃ x, a = [x].
Proof. destruct a as [|x [|x' a]]; try discriminate. eauto. Qed.

(** The three ways of a universal function with arrays of different
    lengths. *)
Lemma apply_ufunc_left_one u x (b : ndarray) :
  length b ≠ 1 → apply_ufunc u [x] b = Ok (map (scalar u x) b).
Proof. intros Hb. unfold apply_ufunc. rewrite decide_False by (cbn; congruence). reflexivity. Qed.

Lemma apply_ufunc_right_one u (a : ndarray) y :
  length a ≠ 1 → apply_ufunc u a [y] = Ok (map (λ x, scalar u x y) a).
Proof.
  intros Ha. unfold apply_ufunc. rewrite decide_False by (cbn; congruence).
  destruct a as [|x [|x' a]]; [reflexivity | contradiction | reflexivity].
Qed.

Lemma apply_ufunc_mismatch u (a b : ndarray) :
  length a ≠ length b → length a ≠ 1 → length b ≠ 1 →
  apply_ufunc u a b = Raise ValueError.
Proof.
  intros Hl Ha Hb. unfold apply_ufunc. rewrite decide_False by assumption.
  destruct a as [|x [|x' a]], b as [|y [|y' b]]; cbn in *; congruence.
Qed.

(** When a universal function fails and what it returns. *)
Lemma apply_ufunc_shapes (u : ufunc) (a b : ndarray) :
  (apply_ufunc u a b = Raise ValueError ↔
     length a ≠ length b ∧ length a ≠ 1 ∧ length b ≠ 1) ∧
  (∀ e, apply_ufunc u a b = Raise e → e = ValueError) ∧
  (∀ c, apply_ufunc u a b = Ok c →
     length c = (if decide (length a = 1) then length b else length a) ∧
     ∀ i, i < length c →
       ∃ x y, broadcast a i = Some x ∧ broadcast b i = Some y ∧
              c !! i = Some (scalar u x y)).
Proof.
  unfold broadcast.
  destruct (decide (length a = length b)) as [Hl|Hl];
    [|destruct (decide (length a = 1)) as [Ha|Ha];
      [|destruct (decide (length b = 1)) as [Hb|Hb]]].
  - (* the same length *)
    rewrite apply_ufunc_same_length by assumption.
    split; [split; [intros H; discriminate H | tauto]|].
    split; [intros e H; discriminate H|].
    intros c H. injection H as <-. rewrite length_zip_with_l_eq by assumption.
    split; [destruct (decide (length a = 1)); congruence|].
    intros i Hi.
    destruct (zip_with_lookup (scalar u) a b i Hl Hi) as (x & y & Hx & Hy & Hz).
    exists x, y. split; [|split; [|exact Hz]].
    + destruct (decide (length a = 1)); [|exact Hx].
      now replace i with 0 in Hx by lia.
    + destruct (decide (length b = 1)); [|exact Hy].
      now replace i with 0 in Hy by lia.
  - (* [a] has one element *)
    destruct (length_one a Ha) as [x ->].
    rewrite apply_ufunc_left_one by (cbn in Hl; congruence).
    split; [split; [intros H; discriminate H | tauto]|].
    split; [intros e H; discriminate H|].
    intros c H. injection H as <-. rewrite length_map. split; [reflexivity|].
    intros i Hi. destruct (lookup_lt_is_Some_2 b i Hi) as [z Hz].
    exists x, z. split; [reflexivity|]. split.
    + rewrite decide_False by (cbn in Hl; congruence). exact Hz.
    + now rewrite lookup_map, Hz.
  - (* [b] has one element *)
    destruct (length_one b Hb) as [y ->].
    rewrite apply_ufunc_right_one by assumption.
    split; [split; [intros H; discriminate H | tauto]|].
    split; [intros e H; discriminate H|].
    intros c H. injection H as <-. rewrite length_map. split; [reflexivity|].
    intros i Hi. destruct (lookup_lt_is_Some_2 a i Hi) as [z Hz].
    exists z, y. split; [exact Hz|]. split; [reflexivity|].
    now rewrite lookup_map, Hz.
  - (* no broadcasting *)
    rewrite apply_ufunc_mismatch by assumption.
    split; [split; [tauto | reflexivity]|].
    split; [now intros e [= <-] | intros c H; discriminate H].
Qed.

Lemma apply_ufunc_Forall (P : F32.t → Prop) u (a b c : ndarray) :
  (∀ x y, P x → P y → P (scalar u x y)) →
  Forall P a → Forall P b → apply_ufunc u a b = Ok c → Forall P c.
Proof.
  intros Hf Ha Hb Hc. apply Forall_lookup_2. intros i z Hz.
  destruct (apply_ufunc_shapes u a b) as (_ & _ & Hok).
  destruct (Hok c Hc) as [_ Hi].
  destruct (Hi i) as (x & y & Hx & Hy & Hz'); [now apply lookup_lt_Some in Hz|].
  unfold ndarray in *. rewrite Hz in Hz'. injection Hz' as ->.
  unfold broadcast in Hx, Hy.
  apply Hf.
  - destruct (decide (length a = 1)); exact (Forall_lookup_1 P a _ x Ha Hx).
  - destruct (decide (length b = 1)); exact (Forall_lookup_1 P b _ y Hb Hy).
Qed.

Lemma add_float32 (x y : F32.t) : float32 x → float32 y → float32 (F32.add x y).
Proof. apply SFadd_valid; reflexivity. Qed.

Lemma mul_float32 (x y : F32.t) : float32 x → float32 y → float32 (F32.mul x y).
Proof. apply SFmul_valid; reflexivity. Qed.

(** X3. [vectorAdd] keeps the dtype: on arrays of binary32 numbers, every
    element of the result is a binary32 number (a zero, an infinity, a NaN,
    or a mantissa and an exponent of the format). *)
Theorem vectorAdd_keeps_float32 (a b c : ndarray) :
  Forall float32 a → Forall float32 b →
  apply_ufunc vectorAdd a b = Ok c → Forall float32 c.
Proof. apply apply_ufunc_Forall. exact add_float32. Qed.

Lemma vectorAdd_keeps_float32_witness :
  Forall float32 [S754_nan; S754_finite false 12582912 (-22); F32.zero].
Proof.
  apply (vectorAdd_keeps_float32
           [S754_infinity true; F32.one; F32.two]
           [S754_infinity false; F32.two; S754_finite true 8388608 (-22)]);
    [repeat constructor | repeat constructor | reflexivity].
Defined.

(** X4. [vectorMultiply] keeps the dtype as well. *)
Theorem vectorMultiply_keeps_float32 (a b c : ndarray) :
  Forall float32 a → Forall float32 b →
  apply_ufunc vectorMultiply a b = Ok c → Forall float32 c.
Proof. apply apply_ufunc_Forall. exact mul_float32. Qed.

Lemma vectorMultiply_keeps_float32_witness :
  Forall float32 [S754_nan; F32.two; S754_finite true 8388608 (-21)].
Proof.
  apply (vectorMultiply_keeps_float32
           [S754_infinity true; F32.one; F32.two]
           [S754_zero false; F32.two; S754_finite true 8388608 (-22)]);
    [repeat constructor | repeat constructor | reflexivity].
Defined.

(** Overflow stays in the dtype: the largest binary32 number added to
    itself is [inf]. *)
Example add_overflows :
  float32 (S754_finite false 16777215 104) ∧
  F32.add (S754_finite false 16777215 104) (S754_finite false 16777215 104) =
    S754_infinity false.
Proof. split; reflexivity. Qed.

Lemma mul_one (x : F32.t) : float32 x → F32.mul x F32.one = x.
Proof.
  unfold float32, F32.mul, F32.one. intros Vx.
  destruct x as [sx|sx| |sx mx ex];
    [now destruct sx | now destruct sx | reflexivity |].
  cbn [SFmul valid_binary] in *.
  replace (xorb sx false) with sx by now destruct sx.
  replace (mx * 8388608)%positive with (Pos.iter xO mx 23).
  - now apply (binary_round_aux_representable F32.prec F32.emax).
  - apply Pos2Z.inj. rewrite iter_xO, Pos2Z.inj_mul.
    now change (2 ^ Z.pos 23)%Z with 8388608%Z.
Qed.

(** X5. Multiplying by an array of ones changes nothing: for every array
    [a] of binary32 numbers none of which is a NaN, [vectorMultiply(a, ones)]
    and [vectorMultiply(ones, a)] are [a], infinities, signed zeros and
    subnormal numbers included. *)
Theorem vectorMultiply_by_ones (a : ndarray) :
  Forall float32 a → Forall (λ x, F32.is_nan x = false) a →
  apply_ufunc vectorMultiply a (ones (length a)) = Ok a ∧
  apply_ufunc vectorMultiply (ones (length a)) a = Ok a.
Proof.
  intros Ha _.
  assert (H : apply_ufunc vectorMultiply a (ones (length a)) = Ok a).
  { rewrite apply_ufunc_same_length by (unfold ones; now rewrite length_replicate).
    f_equal. unfold ones. rewrite zip_with_replicate_r_eq by reflexivity.
    induction Ha as [|x a Hx Ha IH]; [reflexivity|].
    cbn [fmap list_fmap]. f_equal; [now apply mul_one | exact IH]. }
  split; [exact H|].
  rewrite (apply_ufunc_comm vectorMultiply (ones (length a)) a); [exact H|].
  intros x y. apply mul_comm.
Qed.

Lemma vectorMultiply_by_ones_witness :
  apply_ufunc vectorMultiply
    [S754_infinity true; S754_zero true; S754_finite true 11184811 (-25);
     S754_finite false 1 (-149)] (ones 4) =
    Ok [S754_infinity true; S754_zero true; S754_finite true 11184811 (-25);
        S754_finite false 1 (-149)] ∧
  apply_ufunc vectorMultiply
    (ones 4) [S754_infinity true; S754_zero true; S754_finite true 11184811 (-25);
              S754_finite false 1 (-149)] =
    Ok [S754_infinity true; S754_zero true; S754_finite true 11184811 (-25);
        S754_finite false 1 (-149)].
Proof.
  apply (vectorMultiply_by_ones
           [S754_infinity true; S754_zero true; S754_finite true 11184811 (-25);
            S754_finite false 1 (-149)]);
    repeat constructor.
Defined.

(** X6. [vectorAdd] gives a NaN at an index exactly when one of the two
    elements there is a NaN or they are [inf] and [-inf]; two finite
    elements never give a NaN. *)
Theorem vectorAdd_nan (x y : F32.t) :
  F32.is_nan (scalar vectorAdd x y) =
    F32.is_nan x || F32.is_nan y || opposite_infinities x y.
Proof.
  cbn [scalar vectorAdd vectorize]. unfold F32.add.
  destruct x as [sx|sx| |sx mx ex], y as [sy|sy| |sy my ey];
    try destruct sx; try destruct sy; try reflexivity.
  all: cbn [SFadd F32.is_nan opposite_infinities orb];
    match goal with
    | |- context [binary_normalize ?p ?e ?m ?z ?s] =>
        pose proof (binary_normalize_not_nan p e m z s) as Hn;
        destruct (binary_normalize p e m z s); [reflexivity..|contradiction|reflexivity]
    end.
Qed.

(** X7. [vectorMultiply] gives a NaN at an index exactly when one of the
    two elements there is a NaN or they are a zero and an infinity. *)
Theorem vectorMultiply_nan (x y : F32.t) :
  F32.is_nan (scalar vectorMultiply x y) =
    F32.is_nan x || F32.is_nan y || zero_and_infinity x y.
Proof.
  cbn [scalar vectorMultiply vectorize]. unfold F32.mul.
  destruct x as [sx|sx| |sx mx ex], y as [sy|sy| |sy my ey]; try reflexivity.
  cbn [SFmul F32.is_nan zero_and_infinity orb].
  pose proof (binary_round_aux_not_nan F32.prec F32.emax (xorb sx sy)
                (Zpos (mx * my)) (ex + ey) ltac:(lia)) as Hn.
  destruct (binary_round_aux _ _ _ _ _ _); try reflexivity. contradiction.
Qed.

(** ** [main] in any state *)

Lemma heap_lookup_at (h l : list ndarray) k : (h ++ l) !! (k + length h) = l !! k.
Proof. rewrite lookup_app_r by lia. f_equal. lia. Qed.

(** X8. [main] can start in any state of the interpreter in which the two
    global names are bound to the kernels of the module and eight arrays of
    [N] float32 can be allocated. It returns normally; it makes eight new
    arrays and leaves every array that existed as it was; it reads the timer
    four times; it adds its six lines after what was printed before; and it
    assigns to none but its ten local names and to no global name. *)
Theorem main_in_any_state (N : Z) (s : state) :
  (0 ≤ N)%Z → fits s N 8 →
  globals s !! "vectorAdd" = Some (VUfunc vectorAdd) →
  globals s !! "vectorMultiply" = Some (VUfunc vectorMultiply) →
  ∃ s',
    exec (main_with N) s = Ok s' ∧
    heap s' =
      heap s ++ [ones (Z.to_nat N); ones (Z.to_nat N); zeros (Z.to_nat N);
                 replicate (Z.to_nat N) F32.two;
                 ones (Z.to_nat N); ones (Z.to_nat N); zeros (Z.to_nat N);
                 replicate (Z.to_nat N) F32.one] ∧
    clock s' = clock s ∧ ticks s' = 4 + ticks s ∧
    stdout s' =
      stdout s
      ++ report "C" "VectorAdd" (replicate (Z.to_nat N) F32.two)
           (F64.sub (clock s (1 + ticks s)) (clock s (ticks s)))
      ++ report "G" "VectorMultiply" (replicate (Z.to_nat N) F32.one)
           (F64.sub (clock s (3 + ticks s)) (clock s (2 + ticks s))) ∧
    array_of "C" s' = Some (replicate (Z.to_nat N) F32.two) ∧
    array_of "G" s' = Some (replicate (Z.to_nat N) F32.one) ∧
    globals s' = globals s ∧
    ∀ x, x ∉ main_locals → env s' !! x = env s !! x.
Proof.
  intros HN Hfit Hg1 Hg2. eexists. split.
  - apply exec_evals, main_with_runs; eassumption.
  - unfold final, array_of, after_second, after_first.
    cbn [heap clock ticks stdout env globals plus].
    rewrite vectorAdd_ones, vectorMultiply_ones, <- !app_assoc.
    do 4 (split; [reflexivity|]). simplify_map_eq.
    rewrite !length_app. cbn [length app].
    split; [|split; [|split]].
    + now rewrite (heap_lookup_at (heap s) _ 3).
    + replace (S (S (S (length (heap s) + 4)))) with (7 + length (heap s)) by lia.
      now rewrite heap_lookup_at.
    + reflexivity.
    + intros x Hx. unfold main_locals in Hx.
      rewrite list_elem_of_In in Hx. cbn [In] in Hx.
      repeat (rewrite lookup_insert_ne by (intros Heq; apply Hx; tauto)).
      reflexivity.
Qed.

Lemma main_in_any_state_witness :
  ∃ s',
    exec (main_with 2) busy = Ok s' ∧
    heap s' =
      heap busy ++ [ones (Z.to_nat 2); ones (Z.to_nat 2); zeros (Z.to_nat 2);
                    replicate (Z.to_nat 2) F32.two;
                    ones (Z.to_nat 2); ones (Z.to_nat 2); zeros (Z.to_nat 2);
                    replicate (Z.to_nat 2) F32.one] ∧
    clock s' = clock busy ∧ ticks s' = 4 + ticks busy ∧
    stdout s' =
      stdout busy
      ++ report "C" "VectorAdd" (replicate (Z.to_nat 2) F32.two)
           (F64.sub (clock busy (1 + ticks busy)) (clock busy (ticks busy)))
      ++ report "G" "VectorMultiply" (replicate (Z.to_nat 2) F32.one)
           (F64.sub (clock busy (3 + ticks busy)) (clock busy (2 + ticks busy))) ∧
    array_of "C" s' = Some (replicate (Z.to_nat 2) F32.two) ∧
    array_of "G" s' = Some (replicate (Z.to_nat 2) F32.one) ∧
    globals s' = globals busy ∧
    ∀ x, x ∉ main_locals → env s' !! x = env busy !! x.
Proof.
  apply (main_in_any_state 2 busy);
    [ lia
    | split; [vm_compute; discriminate | intros i _; vm_compute; discriminate]
    | reflexivity | reflexivity ].
Defined.
